(** * The in-memory store of server/storage.ts

    A shallow embedding of [MemStorage], the reference implementation of
    [IStorage], together with the parts of the JavaScript runtime its
    methods rely on (object spread, [||], [Map], [Date]).

    Conventions of the embedding:
    - a JavaScript object is a finite map from property names to values;
    - a JavaScript [Map] is an association list in insertion order;
    - [randomUUID()] and [new Date()] are inputs of the environment: every
      method that calls them takes the generated id and the current time
      value as explicit arguments;
    - the methods are [async] only for interface uniformity; a method is a
      function from the store to a result and a new store. *)

From stdpp Require Import gmap strings list fin_maps.
From Stdlib Require Import ZArith Lia.

Open Scope Z_scope.

(** ** JavaScript values *)

(** The values that occur in the records of shared/schema.ts: text columns
    are strings, boolean columns booleans, timestamp columns [Date]s (held
    here as their time value, milliseconds since the epoch), jsonb columns
    plain objects; every nullable column may be [null], and a property that
    is read but absent is [undefined]. *)
#[local] Set Warnings "-register-all".
Inductive jsval : Type :=
| JUndefined
| JNull
| JBool (b : bool)
| JNum (n : Z)
| JStr (s : string)
| JDate (t : Z)
| JObj (o : gmap string jsval).

(** A record of the store: a plain object. *)
Abbreviation obj := (gmap string jsval).

(** ToBoolean: [undefined], [null], [false], [0] and the empty string are
    falsy; objects, [Date]s included, are truthy. *)
Definition truthy (v : jsval) : bool :=
  match v with
  | JUndefined | JNull => false
  | JBool b => b
  | JNum n => negb (n =? 0)
  | JStr s => negb (String.eqb s "")
  | JDate _ | JObj _ => true
  end.

(** [a || b] *)
Definition js_or (a b : jsval) : jsval := if truthy a then a else b.

(** Property read [o.k]: [undefined] when [o] has no property [k]. *)
Definition prop (o : obj) (k : string) : jsval := default JUndefined (o !! k).

(** [v === s] for a string [s]. *)
Definition strict_eq_str (v : jsval) (s : string) : bool :=
  match v with
  | JStr s' => bool_decide (s' = s)
  | _ => false
  end.

(** [{ ...a, ...b }]: the properties of [b] win. *)
Definition spread2 (a b : obj) : obj := b ∪ a.

(** ** JavaScript [Map], in insertion order *)

Module JsMap.

Definition t : Type := list (string * obj).

Definition empty : t := [].

Fixpoint get (k : string) (m : t) : option obj :=
  match m with
  | [] => None
  | (k', v) :: m' => if decide (k = k') then Some v else get k m'
  end.

Definition has (k : string) (m : t) : bool :=
  bool_decide (is_Some (get k m)).

(** [m.set(k, v)]: an existing key keeps its position, a new key goes to
    the end. *)
Fixpoint set (k : string) (v : obj) (m : t) : t :=
  match m with
  | [] => [(k, v)]
  | (k', v') :: m' =>
      if decide (k = k') then (k, v) :: m' else (k', v') :: set k v m'
  end.

(** The map left by [m.delete(k)]: the binding of [k] is dropped.  The keys
    of a map are pairwise distinct ([set] keeps them so), hence there is at
    most one. *)
Fixpoint remove (k : string) (m : t) : t :=
  match m with
  | [] => []
  | (k', v') :: m' =>
      if decide (k = k') then remove k m' else (k', v') :: remove k m'
  end.

Definition keys (m : t) : list string := m.*1.

(** [Array.from(m.values())] *)
Definition values (m : t) : list obj := m.*2.

End JsMap.

(** [Array.prototype.find] *)
Fixpoint array_find {A : Type} (p : A -> bool) (l : list A) : option A :=
  match l with
  | [] => None
  | x :: l' => if p x then Some x else array_find p l'
  end.

(** ** The store *)

Record MemStorage : Type := mkMemStorage {
  users : JsMap.t;
  athletes : JsMap.t;
  exercises : JsMap.t;
  trainingSessions : JsMap.t;
  events : JsMap.t;
  galleryItems : JsMap.t;
  bestOfWeeks : JsMap.t;
  liveStreams : JsMap.t
}.

Definition with_users (f : JsMap.t -> JsMap.t) (s : MemStorage) : MemStorage :=
  mkMemStorage (f (users s)) (athletes s) (exercises s) (trainingSessions s)
    (events s) (galleryItems s) (bestOfWeeks s) (liveStreams s).

Definition with_athletes (f : JsMap.t -> JsMap.t) (s : MemStorage) : MemStorage :=
  mkMemStorage (users s) (f (athletes s)) (exercises s) (trainingSessions s)
    (events s) (galleryItems s) (bestOfWeeks s) (liveStreams s).

Definition with_exercises (f : JsMap.t -> JsMap.t) (s : MemStorage) : MemStorage :=
  mkMemStorage (users s) (athletes s) (f (exercises s)) (trainingSessions s)
    (events s) (galleryItems s) (bestOfWeeks s) (liveStreams s).

Definition with_trainingSessions (f : JsMap.t -> JsMap.t) (s : MemStorage) : MemStorage :=
  mkMemStorage (users s) (athletes s) (exercises s) (f (trainingSessions s))
    (events s) (galleryItems s) (bestOfWeeks s) (liveStreams s).

Definition with_events (f : JsMap.t -> JsMap.t) (s : MemStorage) : MemStorage :=
  mkMemStorage (users s) (athletes s) (exercises s) (trainingSessions s)
    (f (events s)) (galleryItems s) (bestOfWeeks s) (liveStreams s).

Definition with_galleryItems (f : JsMap.t -> JsMap.t) (s : MemStorage) : MemStorage :=
  mkMemStorage (users s) (athletes s) (exercises s) (trainingSessions s)
    (events s) (f (galleryItems s)) (bestOfWeeks s) (liveStreams s).

Definition with_bestOfWeeks (f : JsMap.t -> JsMap.t) (s : MemStorage) : MemStorage :=
  mkMemStorage (users s) (athletes s) (exercises s) (trainingSessions s)
    (events s) (galleryItems s) (f (bestOfWeeks s)) (liveStreams s).

Definition with_liveStreams (f : JsMap.t -> JsMap.t) (s : MemStorage) : MemStorage :=
  mkMemStorage (users s) (athletes s) (exercises s) (trainingSessions s)
    (events s) (galleryItems s) (bestOfWeeks s) (f (liveStreams s)).

(** The field initialisers of the class: eight empty maps. *)
Definition fresh : MemStorage :=
  mkMemStorage JsMap.empty JsMap.empty JsMap.empty JsMap.empty
    JsMap.empty JsMap.empty JsMap.empty JsMap.empty.

(** ** The methods of [MemStorage] *)

(** [initializeDefaultData()]: the three [randomUUID()] results and the three
    [new Date()] time values are arguments. *)
Definition initializeDefaultData
    (adminId athleteId profileId : string) (now1 now2 now3 : Z)
    (s : MemStorage) : MemStorage :=
  let adminUser : obj :=
    <["id" := JStr adminId]> (
    <["username" := JStr "admin"]> (
    <["email" := JStr "admin@lions.com"]> (
    <["password" := JStr "admin123"]> (
    <["role" := JStr "admin"]> (
    <["fullName" := JStr "Administrador Lions"]> (
    <["profilePicture" := JNull]> (
    <["position" := JNull]> (
    <["createdAt" := JDate now1]> ∅)))))))) in
  let s := with_users (JsMap.set adminId adminUser) s in
  let athleteUser : obj :=
    <["id" := JStr athleteId]> (
    <["username" := JStr "joao"]> (
    <["email" := JStr "joao@lions.com"]> (
    <["password" := JStr "athlete123"]> (
    <["role" := JStr "athlete"]> (
    <["fullName" := JStr "Jo√£o Silva"]> (
    <["profilePicture" := JNull]> (
    <["position" := JStr "Ala"]> (
    <["createdAt" := JDate now2]> ∅)))))))) in
  let s := with_users (JsMap.set athleteId athleteUser) s in
  let athlete : obj :=
    <["id" := JStr profileId]> (
    <["userId" := JStr athleteId]> (
    <["height" := JStr "1.85m"]> (
    <["weight" := JStr "78kg"]> (
    <["sleepHours" := JStr "7.5"]> (
    <["overallPerformance" := JStr "85.50"]> (
    <["lastTraining" := JDate now3]> ∅)))))) in
  with_athletes (JsMap.set profileId athlete) s.

(** [new MemStorage()] *)
Definition constructor
    (adminId athleteId profileId : string) (now1 now2 now3 : Z) : MemStorage :=
  initializeDefaultData adminId athleteId profileId now1 now2 now3 fresh.

(** *** Users *)

Definition getUser (id : string) (s : MemStorage) : option obj :=
  JsMap.get id (users s).

Definition getUserByUsername (username : string) (s : MemStorage) : option obj :=
  array_find (fun user => strict_eq_str (prop user "username") username)
    (JsMap.values (users s)).

Definition getUserByEmail (email : string) (s : MemStorage) : option obj :=
  array_find (fun user => strict_eq_str (prop user "email") email)
    (JsMap.values (users s)).

Definition createUser (id : string) (now : Z) (insertUser : obj)
    (s : MemStorage) : obj * MemStorage :=
  let user : obj :=
    <["createdAt" := JDate now]> (
    <["position" := js_or (prop insertUser "position") JNull]> (
    <["profilePicture" := js_or (prop insertUser "profilePicture") JNull]> (
    <["role" := js_or (prop insertUser "role") (JStr "athlete")]> (
    <["id" := JStr id]> insertUser)))) in
  (user, with_users (JsMap.set id user) s).

Definition updateUser (id : string) (updates : obj)
    (s : MemStorage) : option obj * MemStorage :=
  match JsMap.get id (users s) with
  | None => (None, s)
  | Some user =>
      let updatedUser := spread2 user updates in
      (Some updatedUser, with_users (JsMap.set id updatedUser) s)
  end.

(** *** Athletes *)

Definition getAthlete (id : string) (s : MemStorage) : option obj :=
  JsMap.get id (athletes s).

Definition getAthleteByUserId (userId : string) (s : MemStorage) : option obj :=
  array_find (fun athlete => strict_eq_str (prop athlete "userId") userId)
    (JsMap.values (athletes s)).

Definition getAllAthletes (s : MemStorage) : list obj :=
  JsMap.values (athletes s).

Definition createAthlete (id : string) (insertAthlete : obj)
    (s : MemStorage) : obj * MemStorage :=
  let athlete : obj :=
    <["lastTraining" := js_or (prop insertAthlete "lastTraining") JNull]> (
    <["overallPerformance" := js_or (prop insertAthlete "overallPerformance") JNull]> (
    <["sleepHours" := js_or (prop insertAthlete "sleepHours") JNull]> (
    <["weight" := js_or (prop insertAthlete "weight") JNull]> (
    <["height" := js_or (prop insertAthlete "height") JNull]> (
    <["id" := JStr id]> insertAthlete))))) in
  (athlete, with_athletes (JsMap.set id athlete) s).

Definition updateAthlete (id : string) (updates : obj)
    (s : MemStorage) : option obj * MemStorage :=
  match JsMap.get id (athletes s) with
  | None => (None, s)
  | Some athlete =>
      let updatedAthlete := spread2 athlete updates in
      (Some updatedAthlete, with_athletes (JsMap.set id updatedAthlete) s)
  end.

Definition deleteAthlete (id : string) (s : MemStorage) : bool * MemStorage :=
  (JsMap.has id (athletes s), with_athletes (JsMap.remove id) s).

(** *** Exercises *)

Definition getExercise (id : string) (s : MemStorage) : option obj :=
  JsMap.get id (exercises s).

Definition getAllExercises (s : MemStorage) : list obj :=
  JsMap.values (exercises s).

Definition getExercisesByCategory (category : string) (s : MemStorage) : list obj :=
  List.filter (fun exercise => strict_eq_str (prop exercise "category") category)
    (JsMap.values (exercises s)).

Definition createExercise (id : string) (insertExercise : obj)
    (s : MemStorage) : obj * MemStorage :=
  let exercise : obj :=
    <["metrics" := js_or (prop insertExercise "metrics") JNull]> (
    <["videoUrl" := js_or (prop insertExercise "videoUrl") JNull]> (
    <["description" := js_or (prop insertExercise "description") JNull]> (
    <["id" := JStr id]> insertExercise))) in
  (exercise, with_exercises (JsMap.set id exercise) s).

Definition updateExercise (id : string) (updates : obj)
    (s : MemStorage) : option obj * MemStorage :=
  match JsMap.get id (exercises s) with
  | None => (None, s)
  | Some exercise =>
      let updatedExercise := spread2 exercise updates in
      (Some updatedExercise, with_exercises (JsMap.set id updatedExercise) s)
  end.

Definition deleteExercise (id : string) (s : MemStorage) : bool * MemStorage :=
  (JsMap.has id (exercises s), with_exercises (JsMap.remove id) s).

(** *** Training sessions *)

Definition getTrainingSession (id : string) (s : MemStorage) : option obj :=
  JsMap.get id (trainingSessions s).

Definition getTrainingSessionsByAthlete (athleteId : string)
    (s : MemStorage) : list obj :=
  List.filter (fun session => strict_eq_str (prop session "athleteId") athleteId)
    (JsMap.values (trainingSessions s)).

Definition createTrainingSession (id : string) (now : Z) (insertSession : obj)
    (s : MemStorage) : obj * MemStorage :=
  let session : obj :=
    <["completedAt" := JDate now]> (
    <["results" := js_or (prop insertSession "results") JNull]> (
    <["id" := JStr id]> insertSession)) in
  (session, with_trainingSessions (JsMap.set id session) s).

Definition updateTrainingSession (id : string) (updates : obj)
    (s : MemStorage) : option obj * MemStorage :=
  match JsMap.get id (trainingSessions s) with
  | None => (None, s)
  | Some session =>
      let updatedSession := spread2 session updates in
      (Some updatedSession, with_trainingSessions (JsMap.set id updatedSession) s)
  end.

(** ** [Date]

    Time values are integers, milliseconds since 1970-01-01T00:00:00Z, and
    the functions below are the abstract operations of the language
    definition (Day, WeekDay, YearFromTime, MonthFromTime, DateFromTime,
    MakeDay, MakeTime, MakeDate, LocalTime, UTC) on which the methods of
    [Date.prototype] used by the store are defined.  The host time zone is
    a parameter: it gives the offset of local time from UTC at each time
    value, and the offset with which each local time value is read, so
    zones with daylight saving transitions are covered.  Time values stay
    within the range of valid dates, so TimeClip is the identity. *)

Module JsDate.

Definition msPerDay : Z := 86400000.
Definition msPerHour : Z := 3600000.
Definition msPerMinute : Z := 60000.
Definition msPerSecond : Z := 1000.

Definition Day (t : Z) : Z := t `div` msPerDay.
Definition TimeWithinDay (t : Z) : Z := t `mod` msPerDay.
Definition WeekDay (t : Z) : Z := (Day t + 4) `mod` 7.

Definition DayFromYear (y : Z) : Z :=
  365 * (y - 1970) + (y - 1969) `div` 4 - (y - 1901) `div` 100
    + (y - 1601) `div` 400.

Definition DaysInYear (y : Z) : Z :=
  if negb (y `mod` 4 =? 0) then 365
  else if negb (y `mod` 100 =? 0) then 366
  else if negb (y `mod` 400 =? 0) then 365
  else 366.

(** The largest year [y] with [DayFromYear y <= d], searched from the
    estimate [y]: first downwards, then upwards. *)
Fixpoint year_down (fuel : nat) (d y : Z) : Z :=
  match fuel with
  | O => y
  | S fuel' => if d <? DayFromYear y then year_down fuel' d (y - 1) else y
  end.

Fixpoint year_up (fuel : nat) (d y : Z) : Z :=
  match fuel with
  | O => y
  | S fuel' => if DayFromYear (y + 1) <=? d then year_up fuel' d (y + 1) else y
  end.

Definition YearFromTime (t : Z) : Z :=
  let d := Day t in
  let fuel := Z.to_nat (Z.abs d `div` 100000 + 3) in
  year_up fuel d (year_down fuel d (1970 + d `div` 366)).

Definition InLeapYear (t : Z) : Z :=
  if DaysInYear (YearFromTime t) =? 366 then 1 else 0.

Definition DayWithinYear (t : Z) : Z := Day t - DayFromYear (YearFromTime t).

(** The day within the year on which month [m] (0 = January) starts. *)
Definition monthStart (m leap : Z) : Z :=
  match m with
  | 0 => 0
  | 1 => 31
  | 2 => 59 + leap
  | 3 => 90 + leap
  | 4 => 120 + leap
  | 5 => 151 + leap
  | 6 => 181 + leap
  | 7 => 212 + leap
  | 8 => 243 + leap
  | 9 => 273 + leap
  | 10 => 304 + leap
  | _ => 334 + leap
  end.

Definition MonthFromTime (t : Z) : Z :=
  let d := DayWithinYear t in
  let leap := InLeapYear t in
  if d <? 31 then 0
  else if d <? 59 + leap then 1
  else if d <? 90 + leap then 2
  else if d <? 120 + leap then 3
  else if d <? 151 + leap then 4
  else if d <? 181 + leap then 5
  else if d <? 212 + leap then 6
  else if d <? 243 + leap then 7
  else if d <? 273 + leap then 8
  else if d <? 304 + leap then 9
  else if d <? 334 + leap then 10
  else 11.

Definition DateFromTime (t : Z) : Z :=
  DayWithinYear t - monthStart (MonthFromTime t) (InLeapYear t) + 1.

(** MakeDay: the day number of the first day of the month, plus
    [date - 1]; [date] may be zero or negative and then falls in an
    earlier month. *)
Definition MakeDay (year month date : Z) : Z :=
  let ym := year + month `div` 12 in
  let mn := month `mod` 12 in
  let leap := if DaysInYear ym =? 366 then 1 else 0 in
  DayFromYear ym + monthStart mn leap + date - 1.

Definition HourFromTime (t : Z) : Z := (t `div` msPerHour) `mod` 24.
Definition MinFromTime (t : Z) : Z := (t `div` msPerMinute) `mod` 60.
Definition SecFromTime (t : Z) : Z := (t `div` msPerSecond) `mod` 60.
Definition msFromTime (t : Z) : Z := t `mod` msPerSecond.

Definition MakeTime (hour min sec ms : Z) : Z :=
  hour * msPerHour + min * msPerMinute + sec * msPerSecond + ms.

Definition MakeDate (day time : Z) : Z := day * msPerDay + time.

(** The time zone of the host, in milliseconds: [offset_at t] is the offset
    of local time from UTC at the time value [t] (LocalTZA(t, true));
    [offset_of_local l] is the offset with which the local time value [l]
    is read (LocalTZA(l, false)), which for a local time that a transition
    skips or repeats is the offset before the transition. *)
Record zone : Type := mkZone {
  offset_at : Z -> Z;
  offset_of_local : Z -> Z
}.

(** A zone without transitions, [c] milliseconds ahead of UTC. *)
Definition fixed_zone (c : Z) : zone := mkZone (fun _ => c) (fun _ => c).

Section HostTimeZone.

Variable tz : zone.

Definition LocalTime (t : Z) : Z := t + offset_at tz t.
Definition UTC (t : Z) : Z := t - offset_of_local tz t.

(** [d.getDay()] *)
Definition getDay (d : Z) : Z := WeekDay (LocalTime d).

(** [d.getDate()] *)
Definition getDate (d : Z) : Z := DateFromTime (LocalTime d).

(** [d.getHours()], [d.getMinutes()], [d.getSeconds()] and
    [d.getMilliseconds()] *)
Definition getHours (d : Z) : Z := HourFromTime (LocalTime d).
Definition getMinutes (d : Z) : Z := MinFromTime (LocalTime d).
Definition getSeconds (d : Z) : Z := SecFromTime (LocalTime d).
Definition getMilliseconds (d : Z) : Z := msFromTime (LocalTime d).

(** [d.setDate(date)]: the new time value of [d]. *)
Definition setDate (d date : Z) : Z :=
  let t := LocalTime d in
  let newDate :=
    MakeDate (MakeDay (YearFromTime t) (MonthFromTime t) date)
      (TimeWithinDay t) in
  UTC newDate.

(** [d.setHours(hour, min, sec, ms)]: the new time value of [d]. *)
Definition setHours (d hour min sec ms : Z) : Z :=
  let t := LocalTime d in
  let date := MakeDate (Day t) (MakeTime hour min sec ms) in
  UTC date.

End HostTimeZone.

End JsDate.

(** [v.getTime()]: the time value of a [Date]; on any other value of the
    model the call raises a TypeError ([None]). *)
Definition getTime (v : jsval) : option Z :=
  match v with
  | JDate t => Some t
  | _ => None
  end.

(** [v > now] for a [Date] [now] with time value [now]: two [Date]s are
    compared by their time values.  The left operand is the startDate of an
    Event, declared [Date] in the schema; an operand of another runtime type
    is outside that declaration and is taken as not greater. *)
Definition date_gt (v : jsval) (now : Z) : bool :=
  match v with
  | JDate t => bool_decide (now < t)
  | _ => false
  end.

(** The completion of a method that may raise. *)
Inductive outcome (A : Type) : Type :=
| Returns (a : A)
| Throws.
Arguments Returns {A} a.
Arguments Throws {A}.

(** *** Events *)

Definition getEvent (id : string) (s : MemStorage) : option obj :=
  JsMap.get id (events s).

Definition getAllEvents (s : MemStorage) : list obj :=
  JsMap.values (events s).

Definition getUpcomingEvents (now : Z) (s : MemStorage) : list obj :=
  List.filter (fun event => date_gt (prop event "startDate") now)
    (JsMap.values (events s)).

Definition createEvent (id : string) (insertEvent : obj)
    (s : MemStorage) : obj * MemStorage :=
  let event : obj :=
    <["mandatory" := js_or (prop insertEvent "mandatory") JNull]> (
    <["endDate" := js_or (prop insertEvent "endDate") JNull]> (
    <["description" := js_or (prop insertEvent "description") JNull]> (
    <["id" := JStr id]> insertEvent))) in
  (event, with_events (JsMap.set id event) s).

Definition updateEvent (id : string) (updates : obj)
    (s : MemStorage) : option obj * MemStorage :=
  match JsMap.get id (events s) with
  | None => (None, s)
  | Some event =>
      let updatedEvent := spread2 event updates in
      (Some updatedEvent, with_events (JsMap.set id updatedEvent) s)
  end.

Definition deleteEvent (id : string) (s : MemStorage) : bool * MemStorage :=
  (JsMap.has id (events s), with_events (JsMap.remove id) s).

(** *** Gallery *)

Definition getGalleryItem (id : string) (s : MemStorage) : option obj :=
  JsMap.get id (galleryItems s).

Definition getAllGalleryItems (s : MemStorage) : list obj :=
  JsMap.values (galleryItems s).

Definition getGalleryItemsByAlbum (album : string) (s : MemStorage) : list obj :=
  List.filter (fun item => strict_eq_str (prop item "album") album)
    (JsMap.values (galleryItems s)).

Definition createGalleryItem (id : string) (now : Z) (insertItem : obj)
    (s : MemStorage) : obj * MemStorage :=
  let item : obj :=
    <["uploadedAt" := JDate now]> (
    <["album" := js_or (prop insertItem "album") JNull]> (
    <["description" := js_or (prop insertItem "description") JNull]> (
    <["id" := JStr id]> insertItem))) in
  (item, with_galleryItems (JsMap.set id item) s).

Definition deleteGalleryItem (id : string) (s : MemStorage) : bool * MemStorage :=
  (JsMap.has id (galleryItems s), with_galleryItems (JsMap.remove id) s).

(** *** Best of the week *)

(** The private helper [getStartOfWeek(date)]; [start] is a copy of
    [date] that the two setters mutate in turn. *)
Definition getStartOfWeek (tz : JsDate.zone) (date : Z) : Z :=
  let start := date in
  let day := JsDate.getDay tz start in
  let diff := JsDate.getDate tz start - day in
  let start := JsDate.setDate tz start diff in
  let start := JsDate.setHours tz start 0 0 0 0 in
  start.

(** [.find(best => best.weekStart.getTime() === boundary)]: the first
    record, in the order of the map, whose week start has the time value
    [boundary]; the search raises when it meets a record whose weekStart is
    not a [Date] before it has found one. *)
Fixpoint find_weekStart (boundary : Z) (l : list obj) : outcome (option obj) :=
  match l with
  | [] => Returns None
  | best :: l' =>
      match getTime (prop best "weekStart") with
      | None => Throws
      | Some t =>
          if bool_decide (t = boundary) then Returns (Some best)
          else find_weekStart boundary l'
      end
  end.

Definition getCurrentBestOfWeek (tz : JsDate.zone) (now : Z)
    (s : MemStorage) : outcome (option obj) :=
  let currentWeekStart := getStartOfWeek tz now in
  find_weekStart currentWeekStart (JsMap.values (bestOfWeeks s)).

Definition setBestOfWeek (id : string) (insertBestOfWeek : obj)
    (s : MemStorage) : obj * MemStorage :=
  let bestOfWeek : obj :=
    <["achievements" := js_or (prop insertBestOfWeek "achievements") JNull]> (
    <["id" := JStr id]> insertBestOfWeek) in
  (bestOfWeek, with_bestOfWeeks (JsMap.set id bestOfWeek) s).

(** *** Live streams *)

Definition getLiveStream (id : string) (s : MemStorage) : option obj :=
  JsMap.get id (liveStreams s).

Definition getAllLiveStreams (s : MemStorage) : list obj :=
  JsMap.values (liveStreams s).

Definition getActiveLiveStreams (s : MemStorage) : list obj :=
  List.filter (fun stream => truthy (prop stream "isActive"))
    (JsMap.values (liveStreams s)).

Definition createLiveStream (id : string) (insertStream : obj)
    (s : MemStorage) : obj * MemStorage :=
  let stream : obj :=
    <["scheduledFor" := js_or (prop insertStream "scheduledFor") JNull]> (
    <["isActive" := js_or (prop insertStream "isActive") JNull]> (
    <["category" := js_or (prop insertStream "category") JNull]> (
    <["description" := js_or (prop insertStream "description") JNull]> (
    <["id" := JStr id]> insertStream)))) in
  (stream, with_liveStreams (JsMap.set id stream) s).

Definition updateLiveStream (id : string) (updates : obj)
    (s : MemStorage) : option obj * MemStorage :=
  match JsMap.get id (liveStreams s) with
  | None => (None, s)
  | Some stream =>
      let updatedStream := spread2 stream updates in
      (Some updatedStream, with_liveStreams (JsMap.set id updatedStream) s)
  end.

Definition deleteLiveStream (id : string) (s : MemStorage) : bool * MemStorage :=
  (JsMap.has id (liveStreams s), with_liveStreams (JsMap.remove id) s).

(** ** Histories of calls

    The mutating methods of the interface, each with the values the
    environment supplies to it.  A history is run from left to right on the
    store that the constructor leaves. *)

Inductive call : Type :=
| CreateUser (id : string) (now : Z) (insertUser : obj)
| UpdateUser (id : string) (updates : obj)
| CreateAthlete (id : string) (insertAthlete : obj)
| UpdateAthlete (id : string) (updates : obj)
| DeleteAthlete (id : string)
| CreateExercise (id : string) (insertExercise : obj)
| UpdateExercise (id : string) (updates : obj)
| DeleteExercise (id : string)
| CreateTrainingSession (id : string) (now : Z) (insertSession : obj)
| UpdateTrainingSession (id : string) (updates : obj)
| CreateEvent (id : string) (insertEvent : obj)
| UpdateEvent (id : string) (updates : obj)
| DeleteEvent (id : string)
| CreateGalleryItem (id : string) (now : Z) (insertItem : obj)
| DeleteGalleryItem (id : string)
| SetBestOfWeek (id : string) (insertBestOfWeek : obj)
| CreateLiveStream (id : string) (insertStream : obj)
| UpdateLiveStream (id : string) (updates : obj)
| DeleteLiveStream (id : string).

Definition exec (c : call) (s : MemStorage) : MemStorage :=
  match c with
  | CreateUser id now x => (createUser id now x s).2
  | UpdateUser id p => (updateUser id p s).2
  | CreateAthlete id x => (createAthlete id x s).2
  | UpdateAthlete id p => (updateAthlete id p s).2
  | DeleteAthlete id => (deleteAthlete id s).2
  | CreateExercise id x => (createExercise id x s).2
  | UpdateExercise id p => (updateExercise id p s).2
  | DeleteExercise id => (deleteExercise id s).2
  | CreateTrainingSession id now x => (createTrainingSession id now x s).2
  | UpdateTrainingSession id p => (updateTrainingSession id p s).2
  | CreateEvent id x => (createEvent id x s).2
  | UpdateEvent id p => (updateEvent id p s).2
  | DeleteEvent id => (deleteEvent id s).2
  | CreateGalleryItem id now x => (createGalleryItem id now x s).2
  | DeleteGalleryItem id => (deleteGalleryItem id s).2
  | SetBestOfWeek id x => (setBestOfWeek id x s).2
  | CreateLiveStream id x => (createLiveStream id x s).2
  | UpdateLiveStream id p => (updateLiveStream id p s).2
  | DeleteLiveStream id => (deleteLiveStream id s).2
  end.

Fixpoint run (cs : list call) (s : MemStorage) : MemStorage :=
  match cs with
  | [] => s
  | c :: cs' => run cs' (exec c s)
  end.

(** The id that a create call returns (in the [id] field of its record). *)
Definition returned_id (c : call) : option string :=
  match c with
  | CreateUser id _ _ | CreateAthlete id _ | CreateExercise id _
  | CreateTrainingSession id _ _ | CreateEvent id _
  | CreateGalleryItem id _ _ | SetBestOfWeek id _
  | CreateLiveStream id _ => Some id
  | _ => None
  end.

(** The ids returned by the creates of a history. *)
Definition created_ids (cs : list call) : list string := omap returned_id cs.

(** The target id and the partial record of an update call. *)
Definition update_args (c : call) : option (string * obj) :=
  match c with
  | UpdateUser id p | UpdateAthlete id p | UpdateExercise id p
  | UpdateTrainingSession id p | UpdateEvent id p
  | UpdateLiveStream id p => Some (id, p)
  | _ => None
  end.

(** An update call keeps ids when its partial record has no [id] property,
    or one that repeats the id it is called with. *)
Definition keeps_id (c : call) : Prop :=
  match update_args c with
  | Some (id, p) => p !! "id" = None \/ p !! "id" = Some (JStr id)
  | None => True
  end.

(** A property of each of the eight maps of a store. *)
Definition each_map (P : JsMap.t -> Prop) (s : MemStorage) : Prop :=
  P (users s) /\ P (athletes s) /\ P (exercises s) /\ P (trainingSessions s)
  /\ P (events s) /\ P (galleryItems s) /\ P (bestOfWeeks s)
  /\ P (liveStreams s).

(** Every record of the map carries, in its [id] field, the key it is
    stored under. *)
Definition id_is_key (m : JsMap.t) : Prop :=
  forall k r, JsMap.get k m = Some r -> r !! "id" = Some (JStr k).

(** ** Lemmas on maps *)

Section JsMapFacts.

Implicit Types (k : string) (v : obj) (m : JsMap.t).

Lemma get_set k k' v m :
  JsMap.get k' (JsMap.set k v m) = if decide (k' = k) then Some v else JsMap.get k' m.
Proof.
  induction m as [|[k0 v0] m IH]; simpl.
  - destruct (decide (k' = k)); reflexivity.
  - destruct (decide (k = k0)) as [->|Hne]; simpl.
    + destruct (decide (k' = k0)); reflexivity.
    + destruct (decide (k' = k0)) as [->|Hne'].
      * destruct (decide (k0 = k)); congruence.
      * exact IH.
Qed.

Lemma get_set_eq k v m : JsMap.get k (JsMap.set k v m) = Some v.
Proof. rewrite get_set. destruct (decide (k = k)); congruence. Qed.

Lemma get_set_ne k k' v m :
  k' <> k -> JsMap.get k' (JsMap.set k v m) = JsMap.get k' m.
Proof. intros H. rewrite get_set. destruct (decide (k' = k)); congruence. Qed.

Lemma get_remove k k' m :
  JsMap.get k' (JsMap.remove k m) = if decide (k' = k) then None else JsMap.get k' m.
Proof.
  induction m as [|[k0 v0] m IH]; simpl.
  - destruct (decide (k' = k)); reflexivity.
  - destruct (decide (k = k0)) as [->|Hne]; simpl.
    + rewrite IH. destruct (decide (k' = k0)); reflexivity.
    + destruct (decide (k' = k0)) as [->|Hne'].
      * destruct (decide (k0 = k)); congruence.
      * exact IH.
Qed.

Lemma get_remove_eq k m : JsMap.get k (JsMap.remove k m) = None.
Proof. rewrite get_remove. destruct (decide (k = k)); congruence. Qed.

Lemma remove_absent k m : JsMap.get k m = None -> JsMap.remove k m = m.
Proof.
  induction m as [|[k0 v0] m IH]; simpl; [reflexivity|].
  destruct (decide (k = k0)); [discriminate|].
  intros H. f_equal. exact (IH H).
Qed.

Lemma has_false k m : JsMap.get k m = None -> JsMap.has k m = false.
Proof.
  intros H. unfold JsMap.has. rewrite H.
  apply bool_decide_eq_false. intros [x Hx]. discriminate.
Qed.

Lemma has_true k v m : JsMap.get k m = Some v -> JsMap.has k m = true.
Proof.
  intros H. unfold JsMap.has. rewrite H.
  apply bool_decide_eq_true. eauto.
Qed.

Lemma get_None_keys k m : JsMap.get k m = None <-> k ∉ JsMap.keys m.
Proof.
  unfold JsMap.keys. induction m as [|[k0 v0] m IH]; simpl.
  - split; [intros _; apply not_elem_of_nil | reflexivity].
  - rewrite not_elem_of_cons. destruct (decide (k = k0)) as [->|Hne].
    + split; [discriminate | intros [H _]; congruence].
    + rewrite IH. tauto.
Qed.

Lemma get_Some_elem k v m : JsMap.get k m = Some v -> (k, v) ∈ m.
Proof.
  induction m as [|[k0 v0] m IH]; simpl; [discriminate|].
  destruct (decide (k = k0)) as [->|Hne].
  - intros [= ->]. apply list_elem_of_here.
  - intros H. apply list_elem_of_further, IH, H.
Qed.

Lemma get_Some_values k v m : JsMap.get k m = Some v -> v ∈ JsMap.values m.
Proof.
  intros H. unfold JsMap.values.
  apply list_elem_of_fmap. exists (k, v). split; [reflexivity|].
  apply get_Some_elem, H.
Qed.

(** The keys of a map are pairwise distinct, and the operations keep
    them so. *)
Lemma keys_set k v m k' :
  k' ∈ JsMap.keys (JsMap.set k v m) <-> k' = k \/ k' ∈ JsMap.keys m.
Proof.
  unfold JsMap.keys. induction m as [|[k0 v0] m IH]; simpl.
  - rewrite list_elem_of_singleton. split; [tauto|].
    intros [H|H]; [exact H | inversion H].
  - destruct (decide (k = k0)) as [->|Hne]; simpl.
    + rewrite !elem_of_cons. tauto.
    + rewrite !elem_of_cons, IH. tauto.
Qed.

Lemma keys_remove k m k' :
  k' ∈ JsMap.keys (JsMap.remove k m) <-> k' <> k /\ k' ∈ JsMap.keys m.
Proof.
  unfold JsMap.keys. induction m as [|[k0 v0] m IH]; simpl.
  - split; [intros H; inversion H | intros [_ H]; inversion H].
  - destruct (decide (k = k0)) as [->|Hne]; simpl.
    + rewrite IH, elem_of_cons. split; [tauto|].
      intros [H1 [H2|H2]]; [congruence | tauto].
    + rewrite !elem_of_cons, IH. split; [|tauto].
      intros [->|[H1 H2]]; [split; [congruence | tauto] | tauto].
Qed.

Lemma NoDup_keys_set k v m :
  NoDup (JsMap.keys m) -> NoDup (JsMap.keys (JsMap.set k v m)).
Proof.
  induction m as [|[k0 v0] m IH]; simpl; intros H.
  - apply NoDup_singleton.
  - apply NoDup_cons in H as [Hk0 Hm].
    destruct (decide (k = k0)) as [->|Hne]; simpl.
    + apply NoDup_cons. split; assumption.
    + apply NoDup_cons. split; [|apply IH, Hm].
      intros Hin. apply (keys_set k v m k0) in Hin.
      destruct Hin as [->|Hin]; [congruence | exact (Hk0 Hin)].
Qed.

Lemma NoDup_keys_remove k m :
  NoDup (JsMap.keys m) -> NoDup (JsMap.keys (JsMap.remove k m)).
Proof.
  induction m as [|[k0 v0] m IH]; simpl; intros H; [exact H|].
  apply NoDup_cons in H as [Hk0 Hm].
  destruct (decide (k = k0)) as [->|Hne]; simpl; [apply IH, Hm|].
  apply NoDup_cons. split; [|apply IH, Hm].
  intros Hin. apply (keys_remove k m k0) in Hin. tauto.
Qed.

End JsMapFacts.

(** ** The interface, by entity kind

    [IStorage] gives every entity kind a create method; seven kinds have a
    point lookup, six an update and five a delete.  The tables below list
    the methods of [MemStorage] under the kind they belong to. *)

Inductive kind : Type :=
| KUser | KAthlete | KExercise | KTrainingSession
| KEvent | KGalleryItem | KBestOfWeek | KLiveStream.

Definition table (e : kind) (s : MemStorage) : JsMap.t :=
  match e with
  | KUser => users s
  | KAthlete => athletes s
  | KExercise => exercises s
  | KTrainingSession => trainingSessions s
  | KEvent => events s
  | KGalleryItem => galleryItems s
  | KBestOfWeek => bestOfWeeks s
  | KLiveStream => liveStreams s
  end.

(** The create method of a kind; [now] is used by the three kinds that
    stamp their record with [new Date()]. *)
Definition create (e : kind) (id : string) (now : Z) (x : obj)
    (s : MemStorage) : obj * MemStorage :=
  match e with
  | KUser => createUser id now x s
  | KAthlete => createAthlete id x s
  | KExercise => createExercise id x s
  | KTrainingSession => createTrainingSession id now x s
  | KEvent => createEvent id x s
  | KGalleryItem => createGalleryItem id now x s
  | KBestOfWeek => setBestOfWeek id x s
  | KLiveStream => createLiveStream id x s
  end.

Definition get (e : kind) : option (string -> MemStorage -> option obj) :=
  match e with
  | KUser => Some getUser
  | KAthlete => Some getAthlete
  | KExercise => Some getExercise
  | KTrainingSession => Some getTrainingSession
  | KEvent => Some getEvent
  | KGalleryItem => Some getGalleryItem
  | KBestOfWeek => None
  | KLiveStream => Some getLiveStream
  end.

Definition update (e : kind)
    : option (string -> obj -> MemStorage -> option obj * MemStorage) :=
  match e with
  | KUser => Some updateUser
  | KAthlete => Some updateAthlete
  | KExercise => Some updateExercise
  | KTrainingSession => Some updateTrainingSession
  | KEvent => Some updateEvent
  | KGalleryItem => None
  | KBestOfWeek => None
  | KLiveStream => Some updateLiveStream
  end.

Definition delete (e : kind)
    : option (string -> MemStorage -> bool * MemStorage) :=
  match e with
  | KUser => None
  | KAthlete => Some deleteAthlete
  | KExercise => Some deleteExercise
  | KTrainingSession => None
  | KEvent => Some deleteEvent
  | KGalleryItem => Some deleteGalleryItem
  | KBestOfWeek => None
  | KLiveStream => Some deleteLiveStream
  end.

(** [r.id], when it is a string. *)
Definition id_of (r : obj) : option string :=
  match r !! "id" with
  | Some (JStr i) => Some i
  | _ => None
  end.

(** ** Methods and maps *)

(** Every point lookup reads the map of its kind. *)
Lemma get_table e g id s : get e = Some g -> g id s = JsMap.get id (table e s).
Proof. destruct e; intros [= <-]; reflexivity. Qed.

(** Every create stores the record it returns under the generated id, in
    the map of its kind, and that record carries the id. *)
Lemma create_table e id now x s :
  table e (create e id now x s).2
  = JsMap.set id (create e id now x s).1 (table e s).
Proof. destruct e; reflexivity. Qed.

Lemma create_id e id now x s : (create e id now x s).1 !! "id" = Some (JStr id).
Proof. destruct e; simpl; by simplify_map_eq. Qed.

Lemma update_table e u id p s :
  update e = Some u ->
  u id p s =
    match JsMap.get id (table e s) with
    | None => (None, s)
    | Some old => (Some (spread2 old p), (u id p s).2)
    end
  /\ (forall old, JsMap.get id (table e s) = Some old ->
      table e (u id p s).2 = JsMap.set id (spread2 old p) (table e s)).
Proof.
  destruct e; intros [= <-]; simpl;
    [ unfold updateUser | unfold updateAthlete | unfold updateExercise
    | unfold updateTrainingSession | unfold updateEvent
    | unfold updateLiveStream ];
    (split; [| intros old Hold; rewrite Hold; reflexivity]);
    match goal with |- context [JsMap.get ?i ?m] => destruct (JsMap.get i m) end;
    reflexivity.
Qed.

Lemma delete_table e d id s :
  delete e = Some d ->
  (d id s).1 = JsMap.has id (table e s)
  /\ table e (d id s).2 = JsMap.remove id (table e s).
Proof. destruct e; intros [= <-]; split; reflexivity. Qed.

(** A store is determined by its eight maps. *)
Lemma MemStorage_eq s1 s2 :
  (forall e, table e s1 = table e s2) -> s1 = s2.
Proof.
  intros H. destruct s1, s2.
  pose proof (H KUser). pose proof (H KAthlete). pose proof (H KExercise).
  pose proof (H KTrainingSession). pose proof (H KEvent).
  pose proof (H KGalleryItem). pose proof (H KBestOfWeek).
  pose proof (H KLiveStream). simpl in *. congruence.
Qed.

(** A delete of an absent id leaves the store as it is. *)
Lemma delete_absent e d id s :
  delete e = Some d -> JsMap.get id (table e s) = None -> d id s = (false, s).
Proof.
  intros Hd Hnone.
  destruct e; try discriminate Hd; injection Hd as <-; simpl in Hnone;
    [ unfold deleteAthlete, with_athletes | unfold deleteExercise, with_exercises
    | unfold deleteEvent, with_events | unfold deleteGalleryItem, with_galleryItems
    | unfold deleteLiveStream, with_liveStreams ];
    rewrite (remove_absent _ _ Hnone), (has_false _ _ Hnone);
    destruct s; reflexivity.
Qed.

(** ** Claims *)

(** C1. For every entity kind with a point lookup, every generated id and
    every create input, the record that create returns carries the
    generated id, and the point lookup with that id returns a record equal
    to the returned one, generated id and timestamps included. *)
Theorem get_after_create_returns_created
    (e : kind) (g : string -> MemStorage -> option obj)
    (id : string) (now : Z) (x : obj) (s : MemStorage) :
  get e = Some g ->
  let created := (create e id now x s).1 in
  let s' := (create e id now x s).2 in
  id_of created = Some id /\ g id s' = Some created.
Proof.
  intros Hg created s'. split.
  - unfold id_of, created. rewrite create_id. reflexivity.
  - rewrite (get_table e g id s' Hg). unfold s', created.
    rewrite create_table. apply get_set_eq.
Qed.

(** The store right after construction, with sample ids and times. *)
Definition seeded : MemStorage :=
  constructor "id-admin" "id-joao" "id-profile" 1000 1000 1000.

Lemma get_after_create_returns_created_witness :
  let x : obj := {[ "title" := JStr "Final"; "startDate" := JDate 5000 ]} in
  let created := (createEvent "id-1" x seeded).1 in
  let s' := (createEvent "id-1" x seeded).2 in
  get KEvent = Some getEvent
  /\ id_of created = Some "id-1" /\ getEvent "id-1" s' = Some created.
Proof.
  intros x created s'. split; [reflexivity|].
  exact (get_after_create_returns_created KEvent getEvent "id-1" 0 x seeded eq_refl).
Defined.

(** C2. For every entity kind with an update, every existing id and every
    partial record [p], the update returns the record it stores under the
    id; in that record every field present in [p] has the value [p] gives
    it, and every field absent from [p] has the value it had before. *)
Theorem update_overwrites_exactly_the_partial
    (e : kind) (g : string -> MemStorage -> option obj)
    (u : string -> obj -> MemStorage -> option obj * MemStorage)
    (id : string) (p old : obj) (s : MemStorage) :
  get e = Some g ->
  update e = Some u ->
  g id s = Some old ->
  exists new,
    (u id p s).1 = Some new
    /\ g id (u id p s).2 = Some new
    /\ (forall k v, p !! k = Some v -> new !! k = Some v)
    /\ (forall k, p !! k = None -> new !! k = old !! k).
Proof.
  intros Hg Hu Hold. rewrite (get_table e g id s Hg) in Hold.
  destruct (update_table e u id p s Hu) as [Hret Htbl].
  exists (spread2 old p). repeat split.
  - rewrite Hret, Hold. reflexivity.
  - rewrite (get_table e g _ _ Hg), (Htbl old Hold). apply get_set_eq.
  - intros k v Hk. unfold spread2. apply lookup_union_Some_l, Hk.
  - intros k Hk. unfold spread2. apply lookup_union_r, Hk.
Qed.

Lemma update_overwrites_exactly_the_partial_witness :
  let x : obj := {[ "userId" := JStr "id-joao"; "height" := JStr "1.90m";
                    "overallPerformance" := JStr "0" ]} in
  let s := (createAthlete "id-1" x seeded).2 in
  let old := (createAthlete "id-1" x seeded).1 in
  let p : obj := {[ "overallPerformance" := JStr "85.5" ]} in
  (get KAthlete = Some getAthlete /\ update KAthlete = Some updateAthlete
   /\ getAthlete "id-1" s = Some old)
  /\ exists new,
      (updateAthlete "id-1" p s).1 = Some new
      /\ getAthlete "id-1" (updateAthlete "id-1" p s).2 = Some new
      /\ (forall k v, p !! k = Some v -> new !! k = Some v)
      /\ (forall k, p !! k = None -> new !! k = old !! k).
Proof.
  intros x s old p.
  assert (Hold : getAthlete "id-1" s = Some old) by reflexivity.
  split; [repeat split; reflexivity|].
  exact (update_overwrites_exactly_the_partial KAthlete getAthlete updateAthlete
           "id-1" p old s eq_refl eq_refl Hold).
Defined.

(** C9. For every entity kind with a delete and every id, the point lookup
    after a delete of the id finds nothing, and a second delete of the same
    id returns false. *)
Theorem delete_then_get_and_second_delete
    (e : kind) (g : string -> MemStorage -> option obj)
    (d : string -> MemStorage -> bool * MemStorage)
    (id : string) (s : MemStorage) :
  get e = Some g ->
  delete e = Some d ->
  g id (d id s).2 = None /\ (d id (d id s).2).1 = false.
Proof.
  intros Hg Hd.
  destruct (delete_table e d id s Hd) as [_ Htbl].
  assert (Hgone : JsMap.get id (table e (d id s).2) = None).
  { rewrite Htbl. apply get_remove_eq. }
  split.
  - rewrite (get_table e g _ _ Hg). exact Hgone.
  - rewrite (delete_absent e d id _ Hd Hgone). reflexivity.
Qed.

Lemma delete_then_get_and_second_delete_witness :
  (get KAthlete = Some getAthlete /\ delete KAthlete = Some deleteAthlete)
  /\ (deleteAthlete "id-profile" seeded).1 = true
  /\ getAthlete "id-profile" (deleteAthlete "id-profile" seeded).2 = None
  /\ (deleteAthlete "id-profile" (deleteAthlete "id-profile" seeded).2).1 = false.
Proof.
  split; [split; reflexivity|]. split; [reflexivity|].
  exact (delete_then_get_and_second_delete KAthlete getAthlete deleteAthlete
           "id-profile" seeded eq_refl eq_refl).
Defined.

(** ** What a call does to a map

    A call leaves each map as it is, or sets in it the record it creates
    (which carries the returned id), or sets the merge of a stored record
    with the partial record of an update, or removes a key. *)

Inductive map_step (c : call) : JsMap.t -> JsMap.t -> Prop :=
| step_same m : map_step c m m
| step_create id r m :
    returned_id c = Some id ->
    r !! "id" = Some (JStr id) ->
    map_step c m (JsMap.set id r m)
| step_update id p old m :
    update_args c = Some (id, p) ->
    JsMap.get id m = Some old ->
    map_step c m (JsMap.set id (spread2 old p) m)
| step_remove id m : map_step c m (JsMap.remove id m).

Ltac step_of_update :=
  match goal with
  | |- context [JsMap.get ?i ?m] =>
      let H := fresh "Hget" in
      destruct (JsMap.get i m) eqn:H; simpl;
      [ first [ apply step_same | eapply step_update; [reflexivity | exact H] ]
      | apply step_same ]
  end.

Lemma exec_map_step c e s : map_step c (table e s) (table e (exec c s)).
Proof.
  destruct c; simpl;
    try (destruct e; simpl;
         first [ apply step_same
               | apply step_remove
               | apply step_create; [reflexivity | by simplify_map_eq] ]).
  - unfold updateUser; destruct e; step_of_update.
  - unfold updateAthlete; destruct e; step_of_update.
  - unfold updateExercise; destruct e; step_of_update.
  - unfold updateTrainingSession; destruct e; step_of_update.
  - unfold updateEvent; destruct e; step_of_update.
  - unfold updateLiveStream; destruct e; step_of_update.
Qed.

(** Keys come from the seed or from a create. *)
Definition keys_within (ids : list string) (m : JsMap.t) : Prop :=
  forall k, k ∈ JsMap.keys m -> k ∈ ids.

Lemma map_step_keys c ids m m' :
  map_step c m m' ->
  keys_within ids m ->
  keys_within (ids ++ created_ids [c]) m'.
Proof.
  intros Hstep Hm k Hk. apply elem_of_app.
  destruct Hstep as [m | id r m Hret _ | id p old m _ Hold | id m].
  - left. apply Hm, Hk.
  - apply keys_set in Hk as [->|Hk]; [|left; apply Hm, Hk].
    right. unfold created_ids. simpl. rewrite Hret. apply list_elem_of_here.
  - left. apply keys_set in Hk as [->|Hk]; [|apply Hm, Hk].
    apply Hm. destruct (decide (id ∈ JsMap.keys m)) as [Hin|Hnin]; [exact Hin|].
    apply get_None_keys in Hnin. congruence.
  - left. apply keys_remove in Hk as [_ Hk]. apply Hm, Hk.
Qed.

Lemma created_ids_cons c cs : created_ids (c :: cs) = created_ids [c] ++ created_ids cs.
Proof. unfold created_ids. simpl. destruct (returned_id c); reflexivity. Qed.

Lemma run_keys cs : forall ids s,
  (forall e, keys_within ids (table e s)) ->
  forall e, keys_within (ids ++ created_ids cs) (table e (run cs s)).
Proof.
  induction cs as [|c cs IH]; intros ids s Hs e.
  - unfold created_ids. simpl. rewrite app_nil_r. apply Hs.
  - rewrite created_ids_cons, app_assoc. simpl. apply IH.
    intros e'. eapply map_step_keys; [apply exec_map_step | apply Hs].
Qed.

(** The maps of a newly constructed store, with the calls of [set] left
    folded. *)
Tactic Notation "seed_maps" :=
  unfold constructor, initializeDefaultData, with_users, with_athletes, fresh;
  cbn [table users athletes exercises trainingSessions events galleryItems
       bestOfWeeks liveStreams].
Tactic Notation "seed_maps" "in" hyp(H) :=
  unfold constructor, initializeDefaultData, with_users, with_athletes, fresh in H;
  cbn [table users athletes exercises trainingSessions events galleryItems
       bestOfWeeks liveStreams] in H.

Lemma constructor_keys a b c n1 n2 n3 e :
  keys_within [a; b; c] (table e (constructor a b c n1 n2 n3)).
Proof.
  intros k Hk. destruct e; seed_maps in Hk; try (by inversion Hk).
  - apply keys_set in Hk as [->|Hk]; [set_solver|].
    apply keys_set in Hk as [->|Hk]; [set_solver | inversion Hk].
  - apply keys_set in Hk as [->|Hk]; [set_solver | inversion Hk].
Qed.

(** The keys of every map stay pairwise distinct. *)
Lemma map_step_NoDup c m m' :
  map_step c m m' -> NoDup (JsMap.keys m) -> NoDup (JsMap.keys m').
Proof.
  intros Hstep Hm.
  destruct Hstep as [m | id r m _ _ | id p old m _ _ | id m].
  - exact Hm.
  - apply NoDup_keys_set, Hm.
  - apply NoDup_keys_set, Hm.
  - apply NoDup_keys_remove, Hm.
Qed.

Lemma run_NoDup cs : forall s,
  (forall e, NoDup (JsMap.keys (table e s))) ->
  forall e, NoDup (JsMap.keys (table e (run cs s))).
Proof.
  induction cs as [|c cs IH]; intros s Hs e; [apply Hs|].
  simpl. apply IH. intros e'.
  eapply map_step_NoDup; [apply exec_map_step | apply Hs].
Qed.

Lemma constructor_NoDup a b c n1 n2 n3 e :
  NoDup (JsMap.keys (table e (constructor a b c n1 n2 n3))).
Proof.
  destruct e; seed_maps; try apply NoDup_nil_2;
    repeat apply NoDup_keys_set; apply NoDup_nil_2.
Qed.

(** A map step keeps [id_is_key] when the call keeps ids. *)
Lemma map_step_id_is_key c m m' :
  map_step c m m' -> keeps_id c -> id_is_key m -> id_is_key m'.
Proof.
  intros Hstep Hkeep Hm k r.
  destruct Hstep as [m | id r0 m _ Hid | id p old m Hargs Hold | id m].
  - apply Hm.
  - rewrite get_set. destruct (decide (k = id)) as [->|_]; [|apply Hm].
    intros [= <-]. exact Hid.
  - rewrite get_set. destruct (decide (k = id)) as [->|_]; [|apply Hm].
    intros [= <-]. unfold keeps_id in Hkeep. rewrite Hargs in Hkeep.
    unfold spread2. destruct Hkeep as [Hnone|Hsame].
    + rewrite (lookup_union_r _ _ _ Hnone). apply Hm, Hold.
    + apply lookup_union_Some_l, Hsame.
  - rewrite get_remove. destruct (decide (k = id)); [discriminate | apply Hm].
Qed.

Lemma run_id_is_key cs : forall s,
  Forall keeps_id cs ->
  (forall e, id_is_key (table e s)) ->
  forall e, id_is_key (table e (run cs s)).
Proof.
  induction cs as [|c cs IH]; intros s Hcs Hs e; [apply Hs|].
  apply Forall_cons in Hcs as [Hc Hcs]. simpl. apply IH; [exact Hcs|].
  intros e'. eapply map_step_id_is_key; [apply exec_map_step | exact Hc | apply Hs].
Qed.

Lemma constructor_id_is_key a b c n1 n2 n3 e :
  id_is_key (table e (constructor a b c n1 n2 n3)).
Proof.
  intros k r. destruct e; seed_maps; try discriminate.
  - rewrite !get_set. simpl.
    destruct (decide (k = b)) as [->|_]; [intros [= <-]; by simplify_map_eq|].
    destruct (decide (k = a)) as [->|_]; [intros [= <-]; by simplify_map_eq|].
    discriminate.
  - rewrite get_set. simpl.
    destruct (decide (k = c)) as [->|_]; [intros [= <-]; by simplify_map_eq|].
    discriminate.
Qed.

(** C3, as stated, fails on the store the constructor leaves: the ids of
    the three seed records were generated by the constructor, not returned
    by a create, and yet the lookups find them, an update returns the
    merged record and a delete returns true and removes the record. *)
Lemma seeded_id_is_found_without_create :
  created_ids [] = []
  /\ getUser "id-admin" (run [] seeded) <> None
  /\ (updateUser "id-admin" ∅ (run [] seeded)).1 <> None
  /\ (deleteAthlete "id-profile" (run [] seeded)).1 = true
  /\ (deleteAthlete "id-profile" (run [] seeded)).2 <> run [] seeded.
Proof.
  split; [reflexivity|]. split; [discriminate|]. split; [discriminate|].
  split; [reflexivity|]. intros H. apply (f_equal athletes) in H. discriminate H.
Qed.

(** C3, amended. In the store reached from the constructor by any history
    of calls, for every entity kind and every id that is neither one of the
    three ids generated by the constructor nor an id returned by a create
    of the history: the point lookup returns the not-found signal, the
    update returns the not-found signal and the delete returns false, each
    without raising, and the update and the delete leave the whole store
    unchanged. *)
Theorem absent_id_is_not_found
    (adminId athleteId profileId : string) (now1 now2 now3 : Z)
    (cs : list call) (e : kind) (id : string) :
  id ∉ [adminId; athleteId; profileId] ->
  id ∉ created_ids cs ->
  let s := run cs (constructor adminId athleteId profileId now1 now2 now3) in
  (forall g, get e = Some g -> g id s = None)
  /\ (forall u p, update e = Some u -> u id p s = (None, s))
  /\ (forall d, delete e = Some d -> d id s = (false, s)).
Proof.
  intros Hseed Hcreated s.
  assert (Hnone : JsMap.get id (table e s) = None).
  { apply get_None_keys. intros Hk.
    apply (run_keys cs [adminId; athleteId; profileId]) in Hk.
    - apply elem_of_app in Hk as [Hk|Hk]; [exact (Hseed Hk) | exact (Hcreated Hk)].
    - intros e'. apply constructor_keys. }
  repeat split.
  - intros g Hg. rewrite (get_table e g id s Hg). exact Hnone.
  - intros u p Hu. destruct (update_table e u id p s Hu) as [Hret _].
    rewrite Hret, Hnone. reflexivity.
  - intros d Hd. apply (delete_absent e d id s Hd Hnone).
Qed.

Lemma absent_id_is_not_found_witness :
  let cs := [CreateEvent "id-1" {[ "title" := JStr "Final" ]};
             DeleteAthlete "id-profile"] in
  let s := run cs seeded in
  (("id-2" ∉ ["id-admin"; "id-joao"; "id-profile"]) /\ ("id-2" ∉ created_ids cs))
  /\ (forall g, get KEvent = Some g -> g "id-2" s = None)
  /\ (forall u p, update KEvent = Some u -> u "id-2" p s = (None, s))
  /\ (forall d, delete KEvent = Some d -> d "id-2" s = (false, s)).
Proof.
  intros cs s.
  assert (H1 : "id-2" ∉ ["id-admin"; "id-joao"; "id-profile"]).
  { intros H. repeat (apply elem_of_cons in H as [H|H]; [discriminate H|]).
    inversion H. }
  assert (H2 : "id-2" ∉ created_ids cs).
  { intros H. repeat (apply elem_of_cons in H as [H|H]; [discriminate H|]).
    inversion H. }
  split; [split; assumption|].
  exact (absent_id_is_not_found "id-admin" "id-joao" "id-profile" 1000 1000 1000
           cs KEvent "id-2" H1 H2).
Defined.

(** C8, as stated, fails: the partial record of an update may carry an
    [id] property, and the merge then overwrites the id of the stored
    record while the key stays. *)
Lemma update_with_id_changes_id :
  let p : obj := {[ "id" := JStr "id-other" ]} in
  let s' := (updateUser "id-admin" p seeded).2 in
  (exists r, getUser "id-admin" seeded = Some r /\ id_of r = Some "id-admin")
  /\ (exists r', getUser "id-admin" s' = Some r' /\ id_of r' = Some "id-other")
  /\ ~ id_is_key (users s').
Proof.
  intros p s'. split; [eexists; split; reflexivity|].
  split; [eexists; split; reflexivity|].
  intros H.
  assert (Hr : exists r', JsMap.get "id-admin" (users s') = Some r'
                          /\ r' !! "id" = Some (JStr "id-other")).
  { eexists; split; reflexivity. }
  destruct Hr as (r' & Hget & Hid). apply H in Hget. congruence.
Qed.

(** C8, amended. In the store reached from the constructor by any history
    in which no update is given a partial record with an [id] property
    other than the id it is called with, for every entity kind every
    stored record's id field equals the key it is stored under; every
    create stores its record under the id it assigns to it; and a further
    call of that sort leaves the id field of every record that it keeps
    unchanged. *)
Theorem id_is_key_while_updates_keep_id
    (adminId athleteId profileId : string) (now1 now2 now3 : Z)
    (cs : list call) (e : kind) :
  Forall keeps_id cs ->
  let s := run cs (constructor adminId athleteId profileId now1 now2 now3) in
  id_is_key (table e s)
  /\ (forall id now x,
        JsMap.get id (table e (create e id now x s).2)
          = Some (create e id now x s).1
        /\ id_of (create e id now x s).1 = Some id)
  /\ (forall c k r r',
        keeps_id c ->
        JsMap.get k (table e s) = Some r ->
        JsMap.get k (table e (exec c s)) = Some r' ->
        r' !! "id" = r !! "id").
Proof.
  intros Hcs s.
  assert (Hinv : forall e', id_is_key (table e' s)).
  { apply run_id_is_key; [exact Hcs|]. intros e'. apply constructor_id_is_key. }
  split; [apply Hinv|]. split.
  - intros id now x. split.
    + rewrite create_table. apply get_set_eq.
    + unfold id_of. rewrite create_id. reflexivity.
  - intros c k r r' Hc Hr Hr'.
    rewrite (Hinv e k r Hr).
    eapply map_step_id_is_key; [apply exec_map_step | exact Hc | apply Hinv | exact Hr'].
Qed.

Lemma id_is_key_while_updates_keep_id_witness :
  let cs := [CreateEvent "id-1" {[ "title" := JStr "Final" ]};
             UpdateEvent "id-1" {[ "title" := JStr "Semi-final" ]};
             UpdateUser "id-admin" {[ "id" := JStr "id-admin" ]}] in
  Forall keeps_id cs /\ id_is_key (events (run cs seeded)).
Proof.
  intros cs.
  assert (H : Forall keeps_id cs).
  { repeat apply Forall_cons_2; [exact I | left; reflexivity
                                | right; reflexivity | apply Forall_nil_2]. }
  split; [exact H|].
  exact (proj1 (id_is_key_while_updates_keep_id "id-admin" "id-joao" "id-profile"
                  1000 1000 1000 cs KEvent H)).
Defined.

(** ** Defaults and filters *)

Lemma elem_of_bool_filter {A : Type} (f : A -> bool) (l : list A) (x : A) :
  x ∈ List.filter f l <-> x ∈ l /\ f x = true.
Proof. rewrite !list_elem_of_In. apply filter_In. Qed.

Lemma prop_absent (o : obj) (k : string) : o !! k = None -> prop o k = JUndefined.
Proof. intros H. unfold prop. rewrite H. reflexivity. Qed.

Lemma prop_present (o : obj) (k : string) (v : jsval) :
  o !! k = Some v -> prop o k = v.
Proof. intros H. unfold prop. rewrite H. reflexivity. Qed.

(** ** The defaults of the schema

    The defaults that shared/schema.ts declares for the columns that an
    insert may leave out (the generated id and the timestamps apart). *)
Definition column_default (e : kind) (f : string) : option jsval :=
  match e with
  | KUser => if String.eqb f "role" then Some (JStr "athlete") else None
  | KAthlete =>
      if String.eqb f "overallPerformance" then Some (JStr "0") else None
  | KEvent => if String.eqb f "mandatory" then Some (JBool false) else None
  | KGalleryItem => if String.eqb f "album" then Some (JStr "general") else None
  | KLiveStream =>
      if String.eqb f "isActive" then Some (JBool false)
      else if String.eqb f "category" then Some (JStr "nbb")
      else None
  | _ => None
  end.

(** The album under which the gallery of the client lists and filters an
    item: [item.album || 'general']. *)
Definition album_shown (item : obj) : jsval :=
  js_or (prop item "album") (JStr "general").

(** A gallery item as the upload form of the client sends it, but without
    its album. *)
Definition photo : obj :=
  {[ "title" := JStr "Team photo"; "mediaType" := JStr "image";
     "url" := JStr "https://example.org/team.jpg";
     "uploadedBy" := JStr "id-admin" ]}.

(** C4. A defect of the code.  The schema declares "general" as the
    default of album and the client shows an item without album under
    "general", as the claim says; but createGalleryItem stores null for an
    input that omits the album, where createUser does store the default
    of its schema for a role that is omitted, and getGalleryItemsByAlbum
    with "general" then leaves the record out. *)
Lemma gallery_item_without_album_is_not_general :
  let item := (createGalleryItem "id-1" 2000 photo seeded).1 in
  let s' := (createGalleryItem "id-1" 2000 photo seeded).2 in
  photo !! "album" = None
  /\ column_default KGalleryItem "album" = Some (JStr "general")
  /\ getGalleryItem "id-1" s' = Some item
  /\ item !! "album" = Some JNull
  /\ item !! "album" <> column_default KGalleryItem "album"
  /\ album_shown item = JStr "general"
  /\ (item ∉ getGalleryItemsByAlbum "general" s')
  /\ (createUser "id-2" 2000 ∅ seeded).1 !! "role" = column_default KUser "role".
Proof.
  intros item s'. repeat split; try reflexivity; try discriminate.
  intros H. apply elem_of_bool_filter in H as [_ H]. discriminate H.
Qed.

(** An event as the admin form sends it, but without the mandatory flag. *)
Definition final_game : obj :=
  {[ "title" := JStr "Final"; "eventType" := JStr "game";
     "startDate" := JDate 5000; "createdBy" := JStr "id-admin" ]}.

(** C7. A defect of the code.  The schema declares false as the default of
    mandatory, as the claim says; but createEvent stores null for an input
    that omits the flag, where createUser does store the default of its
    schema for a role that is omitted. *)
Lemma event_without_mandatory_is_not_false :
  let event := (createEvent "id-1" final_game seeded).1 in
  let s' := (createEvent "id-1" final_game seeded).2 in
  final_game !! "mandatory" = None
  /\ column_default KEvent "mandatory" = Some (JBool false)
  /\ getEvent "id-1" s' = Some event
  /\ event !! "mandatory" = Some JNull
  /\ event !! "mandatory" <> column_default KEvent "mandatory"
  /\ (createUser "id-2" 2000 ∅ seeded).1 !! "role" = column_default KUser "role".
Proof. intros event s'. repeat split; try reflexivity; discriminate. Qed.

(** C10. When createEvent is called with the mandatory field explicitly
    false, the stored record's mandatory field is null, not false, and the
    stored record is the one that the same input without a mandatory field
    gives. *)
Theorem event_with_mandatory_false_stores_null
    (id : string) (x : obj) (s : MemStorage) :
  x !! "mandatory" = Some (JBool false) ->
  let event := (createEvent id x s).1 in
  let s' := (createEvent id x s).2 in
  getEvent id s' = Some event
  /\ event !! "mandatory" = Some JNull
  /\ event !! "mandatory" <> Some (JBool false)
  /\ createEvent id x s = createEvent id (base.delete "mandatory" x) s.
Proof.
  intros Hx event s'.
  assert (H : event !! "mandatory" = Some JNull).
  { unfold event. simpl. rewrite (prop_present x "mandatory" _ Hx). by simplify_map_eq. }
  split; [apply get_set_eq|]. split; [exact H|]. split; [rewrite H; discriminate|].
  assert (Hrec : (createEvent id x s).1
                 = (createEvent id (base.delete "mandatory" x) s).1).
  { simpl. unfold prop. rewrite Hx, lookup_delete_eq.
    rewrite !lookup_delete_ne by discriminate. simpl.
    apply map_eq. intros k.
    destruct (decide (k = "mandatory")) as [->|Hk]; [by simplify_map_eq|].
    rewrite !(lookup_insert_ne _ "mandatory") by congruence.
    rewrite !lookup_insert. repeat case_decide; try reflexivity.
    rewrite lookup_delete_ne by congruence. reflexivity. }
  unfold createEvent in *. simpl in *. rewrite Hrec. reflexivity.
Qed.

Lemma event_with_mandatory_false_stores_null_witness :
  let x : obj := <["mandatory" := JBool false]> final_game in
  x !! "mandatory" = Some (JBool false)
  /\ (createEvent "id-1" x seeded).1 !! "mandatory" = Some JNull
  /\ createEvent "id-1" x seeded = createEvent "id-1" final_game seeded.
Proof.
  intros x.
  assert (H : x !! "mandatory" = Some (JBool false)) by reflexivity.
  split; [exact H|].
  pose proof (event_with_mandatory_false_stores_null "id-1" x seeded H)
    as (_ & H2 & _ & H4).
  split; [exact H2|]. rewrite H4. reflexivity.
Defined.

(** ** Upcoming events *)

(** C6. For a fixed current time, getUpcomingEvents returns exactly the
    stored events whose startDate is strictly greater than it: an event
    with start date [t] is in the result if and only if it is stored and
    the current time is less than [t]; in particular an event that starts
    exactly at the current time is excluded. *)
Theorem upcoming_events_start_strictly_after_now
    (now : Z) (s : MemStorage) (event : obj) (t : Z) :
  event !! "startDate" = Some (JDate t) ->
  (event ∈ getUpcomingEvents now s <-> event ∈ getAllEvents s /\ now < t)
  /\ (t <= now -> event ∉ getUpcomingEvents now s)
  /\ (t = now -> event ∉ getUpcomingEvents now s).
Proof.
  intros Ht.
  assert (Hiff : event ∈ getUpcomingEvents now s
                 <-> event ∈ getAllEvents s /\ now < t).
  { unfold getUpcomingEvents, getAllEvents. rewrite elem_of_bool_filter.
    rewrite (prop_present event "startDate" _ Ht). simpl.
    rewrite bool_decide_eq_true. reflexivity. }
  split; [exact Hiff|]. split.
  - intros Hle Hin. apply Hiff in Hin as [_ Hlt]. lia.
  - intros -> Hin. apply Hiff in Hin as [_ Hlt]. lia.
Qed.

Lemma upcoming_events_start_strictly_after_now_witness :
  let s := (createEvent "id-1" final_game seeded).2 in
  let event := (createEvent "id-1" final_game seeded).1 in
  event !! "startDate" = Some (JDate 5000)
  /\ event ∈ getUpcomingEvents 4999 s
  /\ event ∉ getUpcomingEvents 5000 s.
Proof.
  intros s event.
  assert (H : event !! "startDate" = Some (JDate 5000)) by reflexivity.
  split; [exact H|]. split.
  - apply (proj1 (upcoming_events_start_strictly_after_now 4999 s event 5000 H)).
    split; [apply list_elem_of_here | reflexivity].
  - apply (proj2 (proj2 (upcoming_events_start_strictly_after_now 5000 s event 5000 H))).
    reflexivity.
Defined.

(** ** The calendar

    [YearFromTime] is the year of the language definition, the largest year
    that starts at or before the time value: the search never runs out of
    fuel. *)

Section Calendar.

Import JsDate.

Lemma DayFromYear_step y :
  365 <= DayFromYear (y + 1) - DayFromYear y <= 366.
Proof. unfold DayFromYear. Z.div_mod_to_equations. lia. Qed.

Lemma DayFromYear_linear y :
  146097 * (y - 1970) - 506 <= 400 * DayFromYear y <= 146097 * (y - 1970) + 589.
Proof. unfold DayFromYear. Z.div_mod_to_equations. lia. Qed.

Lemma year_down_spec fuel : forall d y,
  DayFromYear y - d <= 365 * Z.of_nat fuel ->
  let y' := year_down fuel d y in
  DayFromYear y' <= d /\ (y' = y \/ d < DayFromYear (y' + 1)).
Proof.
  induction fuel as [|fuel IH]; intros d y Hfuel; simpl.
  - split; [lia | left; reflexivity].
  - destruct (Z.ltb_spec d (DayFromYear y)) as [Hlt|Hge].
    + pose proof (DayFromYear_step (y - 1)) as Hstep.
      replace (y - 1 + 1) with y in Hstep by lia.
      destruct (IH d (y - 1)) as [Hle Hor]; [lia|].
      split; [exact Hle|]. right.
      destruct Hor as [->|Hlt']; [|exact Hlt'].
      replace (y - 1 + 1) with y by lia. exact Hlt.
    + split; [lia | left; reflexivity].
Qed.

Lemma year_up_spec fuel : forall d y,
  DayFromYear y <= d ->
  d - DayFromYear y < 365 * (Z.of_nat fuel + 1) ->
  let y' := year_up fuel d y in
  DayFromYear y' <= d < DayFromYear (y' + 1).
Proof.
  induction fuel as [|fuel IH]; intros d y Hle Hfuel; simpl.
  - pose proof (DayFromYear_step y). lia.
  - destruct (Z.leb_spec (DayFromYear (y + 1)) d) as [Hle'|Hgt].
    + pose proof (DayFromYear_step y). apply IH; lia.
    + lia.
Qed.

Lemma YearFromTime_spec t :
  DayFromYear (YearFromTime t) <= Day t < DayFromYear (YearFromTime t + 1).
Proof.
  unfold YearFromTime. set (d := Day t).
  set (fuel := Z.to_nat (Z.abs d `div` 100000 + 3)).
  set (y0 := 1970 + d `div` 366).
  assert (Hfuel : Z.of_nat fuel = Z.abs d `div` 100000 + 3).
  { unfold fuel. apply Z2Nat.id.
    pose proof (Z.div_pos (Z.abs d) 100000 (Z.abs_nonneg d)). lia. }
  pose proof (DayFromYear_linear y0) as Hlin.
  assert (Hy0 : 366 * (y0 - 1970) <= d < 366 * (y0 - 1970) + 366).
  { unfold y0. Z.div_mod_to_equations. lia. }
  assert (Hf : 100000 * (Z.of_nat fuel - 3) <= Z.abs d < 100000 * (Z.of_nat fuel - 3) + 100000).
  { rewrite Hfuel. Z.div_mod_to_equations. lia. }
  destruct (year_down_spec fuel d y0) as [Hle Hor]; [lia|].
  apply year_up_spec; [exact Hle|].
  destruct Hor as [Heq|Hlt].
  - rewrite Heq. lia.
  - pose proof (DayFromYear_step (year_down fuel d y0)). lia.
Qed.

(** The length of a year is the distance between two starts of year. *)
Lemma DaysInYear_step y : DaysInYear y = DayFromYear (y + 1) - DayFromYear y.
Proof.
  unfold DaysInYear, DayFromYear.
  destruct (Z.eqb_spec (y `mod` 4) 0); destruct (Z.eqb_spec (y `mod` 100) 0);
    destruct (Z.eqb_spec (y `mod` 400) 0); simpl;
    Z.div_mod_to_equations; lia.
Qed.

End Calendar.

(** ** The start of the week *)

Section StartOfWeek.

Import JsDate.

Variable tz : zone.

Lemma msPerDay_pos : 0 < msPerDay.
Proof. reflexivity. Qed.

Lemma WeekDay_range t : 0 <= WeekDay t < 7.
Proof. unfold WeekDay. apply Z.mod_pos_bound. lia. Qed.

Lemma Day_bounds t : Day t * msPerDay <= t < Day t * msPerDay + msPerDay.
Proof.
  unfold Day. pose proof (Z.div_mod t msPerDay).
  pose proof (Z.mod_pos_bound t msPerDay msPerDay_pos). lia.
Qed.

Lemma Day_MakeDate d r : 0 <= r < msPerDay -> Day (MakeDate d r) = d.
Proof.
  intros Hr. unfold Day, MakeDate. symmetry.
  apply (Z.div_unique_pos _ _ d r); [exact Hr | lia].
Qed.

Lemma TimeWithinDay_range t : 0 <= TimeWithinDay t < msPerDay.
Proof. apply Z.mod_pos_bound, msPerDay_pos. Qed.

Lemma MonthFromTime_range t : 0 <= MonthFromTime t <= 11.
Proof. unfold MonthFromTime. repeat case_match; lia. Qed.

(** MakeDay in the month of [t]: the days of the month are counted from
    the day of [t]. *)
Lemma MakeDay_same_month t date :
  MakeDay (YearFromTime t) (MonthFromTime t) date
  = Day t - DateFromTime t + date.
Proof.
  pose proof (MonthFromTime_range t) as Hm.
  unfold MakeDay.
  rewrite (Z.div_small (MonthFromTime t) 12) by lia.
  rewrite (Z.mod_small (MonthFromTime t) 12) by lia.
  rewrite Z.add_0_r.
  unfold DateFromTime, DayWithinYear, InLeapYear. lia.
Qed.

Lemma setDate_back d k :
  setDate tz d (getDate tz d - k)
  = UTC tz (MakeDate (Day (LocalTime tz d) - k) (TimeWithinDay (LocalTime tz d))).
Proof.
  unfold setDate, getDate. rewrite MakeDay_same_month.
  f_equal. f_equal. lia.
Qed.

(** The offset of the zone is [c] at the time values from [lo] to [hi],
    and local time values of that span are read with the offset [c]: no
    transition of the zone falls in the span. *)
Definition steady (c lo hi : Z) : Prop :=
  forall u, lo <= u <= hi ->
    offset_at tz u = c /\ offset_of_local tz (u + c) = c.

Lemma steady_mono c lo hi lo' hi' :
  lo <= lo' -> hi' <= hi -> steady c lo hi -> steady c lo' hi'.
Proof. intros Hlo Hhi Hst u Hu. apply Hst. lia. Qed.

(** The week boundary in closed form, while the offset is steady: local
    midnight of the day of [date], moved back by its day of the week. *)
Lemma getStartOfWeek_closed c date :
  steady c (date - 7 * msPerDay) date ->
  getStartOfWeek tz date
  = (Day (date + c) - WeekDay (date + c)) * msPerDay - c.
Proof.
  intros Hst.
  pose proof (WeekDay_range (date + c)) as Hwd.
  pose proof (Day_bounds (date + c)) as Hday.
  pose proof (TimeWithinDay_range (date + c)) as Htw.
  assert (H0 : offset_at tz date = c) by (apply Hst; unfold msPerDay; lia).
  unfold getStartOfWeek. rewrite setDate_back.
  unfold getDay, LocalTime. rewrite H0.
  set (wd := WeekDay (date + c)) in *. set (D := Day (date + c)) in *.
  assert (Hnew : MakeDate (D - wd) (TimeWithinDay (date + c))
                 = (date - wd * msPerDay) + c).
  { unfold MakeDate, TimeWithinDay, D, Day.
    pose proof (Z.div_mod (date + c) msPerDay ltac:(discriminate)). lia. }
  destruct (Hst (date - wd * msPerDay)) as [Hoff HoffL];
    [unfold msPerDay; lia|].
  assert (H1 : UTC tz (MakeDate (D - wd) (TimeWithinDay (date + c)))
               = date - wd * msPerDay).
  { unfold UTC. rewrite Hnew, HoffL. lia. }
  rewrite H1. unfold setHours, LocalTime. rewrite Hoff, <- Hnew.
  rewrite Day_MakeDate by exact Htw.
  unfold UTC, MakeDate, MakeTime.
  replace ((D - wd) * msPerDay
           + (0 * msPerHour + 0 * msPerMinute + 0 * msPerSecond + 0))
    with (((D - wd) * msPerDay - c) + c) by lia.
  destruct (Hst ((D - wd) * msPerDay - c)) as [_ ->];
    [unfold msPerDay in *; lia | lia].
Qed.

Lemma Day_mul d : Day (d * msPerDay) = d.
Proof. unfold Day. apply Z.div_mul. discriminate. Qed.

(** While the offset is steady the boundary is a local Sunday, at
    midnight, not after [date] and less than seven days before it; no
    later local Sunday midnight is at or before [date]. *)
Lemma getStartOfWeek_sunday_midnight c date :
  steady c (date - 7 * msPerDay) date ->
  let start := getStartOfWeek tz date in
  getDay tz start = 0
  /\ getHours tz start = 0 /\ getMinutes tz start = 0
  /\ getSeconds tz start = 0 /\ getMilliseconds tz start = 0
  /\ start <= date < start + 7 * msPerDay
  /\ (forall b, getDay tz b = 0 -> TimeWithinDay (LocalTime tz b) = 0 ->
                b <= date -> b <= start).
Proof.
  intros Hst start. unfold start. rewrite (getStartOfWeek_closed c date Hst).
  set (t := date + c).
  set (D := Day t - WeekDay t).
  pose proof (WeekDay_range t) as Hwd.
  pose proof (Day_bounds t) as Hday.
  assert (Hin : date - 7 * msPerDay <= D * msPerDay - c <= date).
  { unfold D, t in *. unfold msPerDay in *. lia. }
  assert (Hloc : forall f : Z -> Z,
            f (LocalTime tz (D * msPerDay - c)) = f (D * msPerDay)).
  { intros f. unfold LocalTime. destruct (Hst _ Hin) as [-> _]. f_equal. lia. }
  assert (Hsun : (D + 4) `mod` 7 = 0).
  { unfold D, WeekDay in *.
    pose proof (Z.div_mod (Day t + 4) 7 ltac:(lia)) as Hdm.
    replace (Day t - (Day t + 4) `mod` 7 + 4)
      with (((Day t + 4) `div` 7) * 7) by lia.
    apply Z.mod_mul. lia. }
  split.
  { unfold getDay. rewrite (Hloc WeekDay). unfold WeekDay.
    rewrite Day_mul. exact Hsun. }
  split.
  { unfold getHours. rewrite (Hloc HourFromTime). unfold HourFromTime.
    replace (D * msPerDay) with (D * 24 * msPerHour) by (unfold msPerDay, msPerHour; lia).
    rewrite Z.div_mul by discriminate. apply Z.mod_mul. lia. }
  split.
  { unfold getMinutes. rewrite (Hloc MinFromTime). unfold MinFromTime.
    replace (D * msPerDay) with (D * 24 * 60 * msPerMinute)
      by (unfold msPerDay, msPerMinute; lia).
    rewrite Z.div_mul by discriminate. apply Z.mod_mul. lia. }
  split.
  { unfold getSeconds. rewrite (Hloc SecFromTime). unfold SecFromTime.
    replace (D * msPerDay) with (D * 24 * 60 * 60 * msPerSecond)
      by (unfold msPerDay, msPerSecond; lia).
    rewrite Z.div_mul by discriminate. apply Z.mod_mul. lia. }
  split.
  { unfold getMilliseconds. rewrite (Hloc msFromTime). unfold msFromTime.
    replace (D * msPerDay) with (D * 86400 * msPerSecond)
      by (unfold msPerDay, msPerSecond; lia).
    apply Z.mod_mul. discriminate. }
  split.
  { unfold D, t in *. unfold msPerDay in *. lia. }
  intros b Hbday Hbmid Hble.
  destruct (Z.lt_ge_cases b (date - 7 * msPerDay)) as [Hold|Hnew]; [lia|].
  unfold getDay, WeekDay in Hbday. unfold TimeWithinDay in Hbmid.
  unfold LocalTime in Hbday, Hbmid.
  destruct (Hst b (conj Hnew Hble)) as [Hoffb _]. rewrite Hoffb in Hbday, Hbmid.
  set (tb := b + c) in *.
  assert (Htb : tb = Day tb * msPerDay).
  { unfold Day. pose proof (Z.div_mod tb msPerDay ltac:(discriminate)). lia. }
  assert (Hle : Day tb <= Day t).
  { unfold Day. apply Z.div_le_mono; [reflexivity|]. unfold tb, t. lia. }
  pose proof (Z.div_mod (Day tb + 4) 7 ltac:(lia)) as Hb7.
  pose proof (Z.div_mod (D + 4) 7 ltac:(lia)) as HD7.
  rewrite Hbday in Hb7. rewrite Hsun in HD7.
  assert (HDt : Day t - 6 <= D) by (unfold D; lia).
  assert (HbD : Day tb <= D) by lia.
  assert (Hb : b + c = tb) by reflexivity.
  pose proof (Z.mul_le_mono_nonneg_r (Day tb) D msPerDay
                ltac:(discriminate) HbD).
  lia.
Qed.

End StartOfWeek.

Lemma fixed_zone_steady c lo hi : steady (JsDate.fixed_zone c) c lo hi.
Proof. intros u _. split; reflexivity. Qed.

(** ** The current best of the week *)

(** On records whose weekStart is a [Date] the search completes normally,
    with the first record of the list whose week start has the time value
    [boundary], or with nothing when there is none. *)
Lemma find_weekStart_first boundary (l : list obj) :
  (forall r, r ∈ l -> exists w, r !! "weekStart" = Some (JDate w)) ->
  exists result,
    find_weekStart boundary l = Returns result
    /\ match result with
       | Some r =>
           exists l1 l2, l = l1 ++ r :: l2
             /\ r !! "weekStart" = Some (JDate boundary)
             /\ forall r', r' ∈ l1 -> r' !! "weekStart" <> Some (JDate boundary)
       | None => forall r, r ∈ l -> r !! "weekStart" <> Some (JDate boundary)
       end.
Proof.
  induction l as [|best l IH]; intros Htyped; simpl.
  - exists None. split; [reflexivity|]. intros r Hr. inversion Hr.
  - destruct (Htyped best (list_elem_of_here _ _)) as [w Hw].
    rewrite (prop_present best "weekStart" _ Hw). simpl.
    destruct (decide (w = boundary)) as [->|Hne].
    + rewrite bool_decide_eq_true_2 by reflexivity.
      exists (Some best). split; [reflexivity|].
      exists [], l. split; [reflexivity|]. split; [exact Hw|].
      intros r' Hr'. inversion Hr'.
    + rewrite bool_decide_eq_false_2 by exact Hne.
      destruct IH as (result & Hres & Hspec).
      { intros r Hr. apply Htyped, list_elem_of_further, Hr. }
      exists result. split; [exact Hres|].
      destruct result as [r|].
      * destruct Hspec as (l1 & l2 & -> & Hr & Hl1).
        exists (best :: l1), l2. split; [reflexivity|]. split; [exact Hr|].
        intros r' Hr'. apply elem_of_cons in Hr' as [->|Hr']; [|apply Hl1, Hr'].
        rewrite Hw. congruence.
      * intros r Hr. apply elem_of_cons in Hr as [->|Hr]; [|apply Hspec, Hr].
        rewrite Hw. congruence.
Qed.

(** Two records for the week of 2026-11-03 in a zone three hours behind
    UTC: the first starts on the boundary, the second a millisecond later;
    and a third one, for another athlete, on the boundary again. *)
Definition week_of_joao : obj :=
  {[ "athleteId" := JStr "id-profile"; "weekStart" := JDate 1793502000000;
     "setBy" := JStr "id-admin" ]}.

Definition week_off_by_one : obj :=
  {[ "athleteId" := JStr "id-profile"; "weekStart" := JDate 1793502000001;
     "setBy" := JStr "id-admin" ]}.

Definition week_of_ana : obj :=
  {[ "athleteId" := JStr "id-ana"; "weekStart" := JDate 1793502000000;
     "setBy" := JStr "id-admin" ]}.

(** A zone four hours behind UTC that moves its clock forward by one hour
    at local midnight of Sunday 2026-09-06 (04:00 UTC), as America/Santiago
    does: the local times from 00:00 to 01:00 of that day do not exist and
    are read with the offset before the transition. *)
Definition midnight_gap_zone : JsDate.zone :=
  JsDate.mkZone
    (fun t => if t <? 1788667200000 then -14400000 else -10800000)
    (fun l => if l <? 1788656400000 then -14400000 else -10800000).

(** C5, as stated, fails in two ways.  With two stored records on the
    boundary the lookup returns the one inserted first: the second has
    exactly the boundary as its weekStart and is not returned.  And the
    boundary need not have its hours at zero: on a host whose clock goes
    forward at local midnight of a Sunday, the boundary computed on the
    following Wednesday at noon is that Sunday at 01:00 local time. *)
Lemma current_best_of_week_counterexamples :
  (let s := run [SetBestOfWeek "id-1" week_of_joao;
                 SetBestOfWeek "id-2" week_of_ana] seeded in
   let tz := JsDate.fixed_zone (-10800000) in
   let now := 1793664000123 in
   let second := (setBestOfWeek "id-2" week_of_ana seeded).1 in
   getStartOfWeek tz now = 1793502000000
   /\ second ∈ JsMap.values (bestOfWeeks s)
   /\ second !! "weekStart" = Some (JDate (getStartOfWeek tz now))
   /\ getCurrentBestOfWeek tz now s
      = Returns (Some (setBestOfWeek "id-1" week_of_joao seeded).1)
   /\ getCurrentBestOfWeek tz now s <> Returns (Some second))
  /\ (let start := getStartOfWeek midnight_gap_zone 1788966000000 in
      start = 1788667200000
      /\ JsDate.getDay midnight_gap_zone start = 0
      /\ JsDate.getHours midnight_gap_zone start = 1).
Proof.
  split.
  - intros s tz now second.
    split; [reflexivity|].
    split; [apply list_elem_of_further, list_elem_of_here|].
    split; [vm_compute; reflexivity|].
    split; [vm_compute; reflexivity|].
    intros H. vm_compute in H. discriminate H.
  - intros start. repeat split; vm_compute; reflexivity.
Qed.

(** C5, amended. With every stored BestOfWeek record carrying a [Date] as
    its weekStart, getCurrentBestOfWeek returns the first stored record, in
    the order of insertion, whose weekStart is equal, to the millisecond,
    to the boundary that getStartOfWeek computes from the current time; it
    returns the not-found signal exactly when no stored record has that
    weekStart; a record whose weekStart differs by any amount is not
    returned.  On a host whose offset from UTC does not change in the
    seven days up to the current time, the boundary is the most recent
    local Sunday at or before the current time, with hours, minutes,
    seconds and milliseconds zero. *)
Theorem current_best_of_week_is_first_exact_match
    (tz : JsDate.zone) (now : Z) (s : MemStorage) :
  (forall r, r ∈ JsMap.values (bestOfWeeks s) ->
             exists w, r !! "weekStart" = Some (JDate w)) ->
  let stored := JsMap.values (bestOfWeeks s) in
  let boundary := getStartOfWeek tz now in
  (exists result,
      getCurrentBestOfWeek tz now s = Returns result
      /\ (forall r, result = Some r ->
            exists earlier later,
              stored = earlier ++ r :: later
              /\ r !! "weekStart" = Some (JDate boundary)
              /\ forall r', r' ∈ earlier ->
                    r' !! "weekStart" <> Some (JDate boundary))
      /\ (result = None <->
            forall r, r ∈ stored -> r !! "weekStart" <> Some (JDate boundary))
      /\ (forall r w, r !! "weekStart" = Some (JDate w) -> w <> boundary ->
            result <> Some r))
  /\ (forall c, steady tz c (now - 7 * JsDate.msPerDay) now ->
        JsDate.getDay tz boundary = 0
        /\ JsDate.getHours tz boundary = 0 /\ JsDate.getMinutes tz boundary = 0
        /\ JsDate.getSeconds tz boundary = 0
        /\ JsDate.getMilliseconds tz boundary = 0
        /\ boundary <= now < boundary + 7 * JsDate.msPerDay
        /\ (forall b, JsDate.getDay tz b = 0 ->
                      JsDate.TimeWithinDay (JsDate.LocalTime tz b) = 0 ->
                      b <= now -> b <= boundary)).
Proof.
  intros Htyped stored boundary.
  split; [|intros c Hst; apply (getStartOfWeek_sunday_midnight tz c now Hst)].
  unfold getCurrentBestOfWeek. fold stored boundary.
  clearbody boundary.
  destruct (find_weekStart_first boundary stored Htyped) as (result & Hres & Hspec).
  exists result. split; [exact Hres|].
  split; [|split].
  - intros r ->. exact Hspec.
  - split.
    + intros ->. exact Hspec.
    + intros Hno. destruct result as [r|]; [|reflexivity].
      destruct Hspec as (l1 & l2 & Heq & Hr & _).
      exfalso. apply (Hno r); [|exact Hr].
      rewrite Heq. apply elem_of_app. right. apply list_elem_of_here.
  - intros r w Hw Hne ->. destruct Hspec as (l1 & l2 & _ & Hr & _). congruence.
Qed.

Lemma current_best_of_week_is_first_exact_match_witness :
  let s := run [SetBestOfWeek "id-1" week_off_by_one;
                SetBestOfWeek "id-2" week_of_joao] seeded in
  ((forall r, r ∈ JsMap.values (bestOfWeeks s) ->
              exists w, r !! "weekStart" = Some (JDate w))
   /\ steady (JsDate.fixed_zone (-10800000)) (-10800000)
        (1793664000123 - 7 * JsDate.msPerDay) 1793664000123)
  /\ (exists r,
        getCurrentBestOfWeek (JsDate.fixed_zone (-10800000)) 1793664000123 s
          = Returns (Some r)
        /\ r !! "weekStart" = Some (JDate 1793502000000))
  /\ JsDate.getDay (JsDate.fixed_zone (-10800000))
       (getStartOfWeek (JsDate.fixed_zone (-10800000)) 1793664000123) = 0.
Proof.
  intros s.
  assert (H : forall r, r ∈ JsMap.values (bestOfWeeks s) ->
                        exists w, r !! "weekStart" = Some (JDate w)).
  { intros r Hr. apply elem_of_cons in Hr as [->|Hr]; [eexists; reflexivity|].
    apply elem_of_cons in Hr as [->|Hr]; [eexists; reflexivity|]. inversion Hr. }
  pose proof (fixed_zone_steady (-10800000)
                (1793664000123 - 7 * JsDate.msPerDay) 1793664000123) as Hst.
  split; [split; [exact H | exact Hst]|].
  destruct (current_best_of_week_is_first_exact_match
              (JsDate.fixed_zone (-10800000)) 1793664000123 s H)
    as ((result & Hres & Hsome & Hnone & _) & Hboundary).
  split; [|exact (proj1 (Hboundary _ Hst))].
  destruct result as [r|].
  - exists r. split; [exact Hres|].
    destruct (Hsome r eq_refl) as (_ & _ & _ & Hr & _).
    rewrite Hr. vm_compute. reflexivity.
  - exfalso.
    apply (proj1 Hnone eq_refl (setBestOfWeek "id-2" week_of_joao seeded).1).
    + apply list_elem_of_further, list_elem_of_here.
    + vm_compute. reflexivity.
Defined.


(** * Further properties of the store *)

(** ** The footprint of a call *)

(** The kind whose map a call works on. *)
Definition call_kind (c : call) : kind :=
  match c with
  | CreateUser _ _ _ | UpdateUser _ _ => KUser
  | CreateAthlete _ _ | UpdateAthlete _ _ | DeleteAthlete _ => KAthlete
  | CreateExercise _ _ | UpdateExercise _ _ | DeleteExercise _ => KExercise
  | CreateTrainingSession _ _ _ | UpdateTrainingSession _ _ => KTrainingSession
  | CreateEvent _ _ | UpdateEvent _ _ | DeleteEvent _ => KEvent
  | CreateGalleryItem _ _ _ | DeleteGalleryItem _ => KGalleryItem
  | SetBestOfWeek _ _ => KBestOfWeek
  | CreateLiveStream _ _ | UpdateLiveStream _ _ | DeleteLiveStream _ => KLiveStream
  end.

(** The id a call works on: the generated id of a create, the argument of
    an update or a delete. *)
Definition call_id (c : call) : string :=
  match c with
  | CreateUser id _ _ | UpdateUser id _
  | CreateAthlete id _ | UpdateAthlete id _ | DeleteAthlete id
  | CreateExercise id _ | UpdateExercise id _ | DeleteExercise id
  | CreateTrainingSession id _ _ | UpdateTrainingSession id _
  | CreateEvent id _ | UpdateEvent id _ | DeleteEvent id
  | CreateGalleryItem id _ _ | DeleteGalleryItem id
  | SetBestOfWeek id _
  | CreateLiveStream id _ | UpdateLiveStream id _ | DeleteLiveStream id => id
  end.

#[global] Instance kind_eq_dec : EqDecision kind.
Proof. solve_decision. Defined.

Ltac unfold_updates :=
  unfold updateUser, updateAthlete, updateExercise, updateTrainingSession,
    updateEvent, updateLiveStream.

Ltac split_get :=
  repeat match goal with
  | |- context [match JsMap.get ?i ?m with _ => _ end] =>
      destruct (JsMap.get i m); simpl
  end.

Lemma exec_other_kind c e s : e <> call_kind c -> table e (exec c s) = table e s.
Proof.
  intros Hne.
  destruct c; destruct e; simpl in *; try congruence; try reflexivity;
    unfold_updates; split_get; reflexivity.
Qed.

Lemma exec_own_kind c s :
  let m := table (call_kind c) s in
  let m' := table (call_kind c) (exec c s) in
  m' = m
  \/ (exists r, m' = JsMap.set (call_id c) r m)
  \/ m' = JsMap.remove (call_id c) m.
Proof.
  destruct c; simpl;
    try (right; left; eexists; reflexivity);
    try (right; right; reflexivity);
    unfold_updates; split_get;
    first [ left; reflexivity | right; left; eexists; reflexivity ].
Qed.

Lemma update_other_kind e u id p s e' :
  update e = Some u -> e' <> e -> table e' (u id p s).2 = table e' s.
Proof.
  intros Hu Hne.
  destruct e; try discriminate Hu; injection Hu as <-;
    destruct e'; try congruence; unfold_updates; split_get; reflexivity.
Qed.

Lemma update_absent e u id p s :
  update e = Some u -> JsMap.get id (table e s) = None -> u id p s = (None, s).
Proof.
  intros Hu Hnone. destruct (update_table e u id p s Hu) as [Hret _].
  rewrite Hret, Hnone. reflexivity.
Qed.

(** ** More on maps *)

Lemma set_fresh k v (m : JsMap.t) :
  JsMap.get k m = None -> JsMap.set k v m = m ++ [(k, v)].
Proof.
  induction m as [|[k0 v0] m IH]; simpl; [reflexivity|].
  destruct (decide (k = k0)); [discriminate|].
  intros H. f_equal. exact (IH H).
Qed.

Lemma set_same k v (m : JsMap.t) :
  JsMap.get k m = Some v -> JsMap.set k v m = m.
Proof.
  induction m as [|[k0 v0] m IH]; simpl; [discriminate|].
  destruct (decide (k = k0)) as [->|Hne].
  - intros [= ->]. reflexivity.
  - intros H. f_equal. exact (IH H).
Qed.

Lemma set_set k v1 v2 (m : JsMap.t) :
  JsMap.set k v2 (JsMap.set k v1 m) = JsMap.set k v2 m.
Proof.
  induction m as [|[k0 v0] m IH]; simpl.
  - destruct (decide (k = k)); congruence.
  - destruct (decide (k = k0)) as [->|Hne]; simpl.
    + destruct (decide (k0 = k0)); congruence.
    + destruct (decide (k = k0)); [congruence|]. f_equal. exact IH.
Qed.

Lemma keys_set_present k v (m : JsMap.t) :
  is_Some (JsMap.get k m) -> JsMap.keys (JsMap.set k v m) = JsMap.keys m.
Proof.
  unfold JsMap.keys. induction m as [|[k0 v0] m IH]; simpl.
  - intros [x Hx]. discriminate.
  - destruct (decide (k = k0)) as [->|Hne]; simpl; [reflexivity|].
    intros H. f_equal. exact (IH H).
Qed.

Lemma remove_filter k (m : JsMap.t) :
  JsMap.remove k m = List.filter (fun kv => negb (bool_decide (kv.1 = k))) m.
Proof.
  induction m as [|[k0 v0] m IH]; simpl; [reflexivity|].
  destruct (decide (k = k0)) as [->|Hne].
  - rewrite bool_decide_eq_true_2 by reflexivity. simpl. exact IH.
  - rewrite bool_decide_eq_false_2 by congruence. simpl. f_equal. exact IH.
Qed.

Lemma array_find_app {A : Type} (p : A -> bool) (l1 l2 : list A) :
  array_find p (l1 ++ l2)
  = match array_find p l1 with
    | Some x => Some x
    | None => array_find p l2
    end.
Proof.
  induction l1 as [|x l1 IH]; simpl; [reflexivity|].
  destruct (p x); [reflexivity | exact IH].
Qed.

(** ** Frame properties *)

(** X1. No call has an effect on the map of another entity kind: a history
    without calls of kind [e] leaves the map of [e] exactly as it was.  In
    particular a delete does not cascade to records that refer to the
    deleted one. *)
Theorem history_leaves_other_kinds_untouched
    (cs : list call) (e : kind) (s : MemStorage) :
  Forall (fun c => call_kind c <> e) cs ->
  table e (run cs s) = table e s.
Proof.
  revert s. induction cs as [|c cs IH]; intros s Hcs; [reflexivity|].
  apply Forall_cons in Hcs as [Hc Hcs]. simpl.
  rewrite (IH _ Hcs). apply exec_other_kind. congruence.
Qed.

Lemma history_leaves_other_kinds_untouched_witness :
  let cs := [DeleteAthlete "id-profile"; CreateEvent "id-1" final_game] in
  Forall (fun c => call_kind c <> KUser) cs
  /\ getAthlete "id-profile" (run cs seeded) = None
  /\ users (run cs seeded) = users seeded.
Proof.
  intros cs.
  assert (H : Forall (fun c => call_kind c <> KUser) cs).
  { repeat apply Forall_cons_2; [discriminate | discriminate | apply Forall_nil_2]. }
  split; [exact H|]. split; [reflexivity|].
  exact (history_leaves_other_kinds_untouched cs KUser seeded H).
Defined.

Lemma exec_other_id c e s k :
  call_id c <> k ->
  JsMap.get k (table e (exec c s)) = JsMap.get k (table e s).
Proof.
  intros Hne. destruct (decide (e = call_kind c)) as [->|He].
  - destruct (exec_own_kind c s) as [H|[[r H]|H]]; simpl in H; rewrite H.
    + reflexivity.
    + apply get_set_ne. congruence.
    + rewrite get_remove. destruct (decide (k = call_id c)); congruence.
  - rewrite exec_other_kind by exact He. reflexivity.
Qed.

(** X2. A call changes at most the record stored under the id it is given
    or generates: after a history in which no call works on the id [k],
    every map holds under [k] what it held before. *)
Theorem history_leaves_other_ids_untouched
    (cs : list call) (e : kind) (k : string) (s : MemStorage) :
  Forall (fun c => call_id c <> k) cs ->
  JsMap.get k (table e (run cs s)) = JsMap.get k (table e s).
Proof.
  revert s. induction cs as [|c cs IH]; intros s Hcs; [reflexivity|].
  apply Forall_cons in Hcs as [Hc Hcs]. simpl.
  rewrite (IH _ Hcs). apply exec_other_id, Hc.
Qed.

Lemma history_leaves_other_ids_untouched_witness :
  let cs := [UpdateUser "id-joao" {[ "position" := JStr "Pivot" ]};
             CreateUser "id-1" 2000 {[ "username" := JStr "ana" ]}] in
  Forall (fun c => call_id c <> "id-admin") cs
  /\ getUser "id-admin" (run cs seeded) = getUser "id-admin" seeded.
Proof.
  intros cs.
  assert (H : Forall (fun c => call_id c <> "id-admin") cs).
  { repeat apply Forall_cons_2; [discriminate | discriminate | apply Forall_nil_2]. }
  split; [exact H|].
  exact (history_leaves_other_ids_untouched cs KUser "id-admin" seeded H).
Defined.

(** X3. An update never adds or removes a record: whether or not the id
    exists, the ids of the map and their order are the same after the
    update as before (there is no upsert). *)
Theorem update_keeps_the_ids
    (e : kind) (u : string -> obj -> MemStorage -> option obj * MemStorage)
    (id : string) (p : obj) (s : MemStorage) :
  update e = Some u ->
  JsMap.keys (table e (u id p s).2) = JsMap.keys (table e s)
  /\ length (JsMap.values (table e (u id p s).2))
     = length (JsMap.values (table e s)).
Proof.
  intros Hu.
  assert (Hkeys : JsMap.keys (table e (u id p s).2) = JsMap.keys (table e s)).
  { destruct (JsMap.get id (table e s)) as [old|] eqn:Hold.
    - destruct (update_table e u id p s Hu) as [_ Htbl].
      rewrite (Htbl old Hold). apply keys_set_present. eauto.
    - rewrite (update_absent e u id p s Hu Hold). reflexivity. }
  split; [exact Hkeys|].
  unfold JsMap.keys, JsMap.values in *.
  rewrite !length_fmap. rewrite <- (length_fmap fst), Hkeys, length_fmap.
  reflexivity.
Qed.

Lemma update_keeps_the_ids_witness :
  update KUser = Some updateUser
  /\ JsMap.keys (users (updateUser "id-9" {[ "role" := JStr "admin" ]} seeded).2)
     = JsMap.keys (users seeded).
Proof.
  split; [reflexivity|].
  exact (proj1 (update_keeps_the_ids KUser updateUser "id-9"
                  {[ "role" := JStr "admin" ]} seeded eq_refl)).
Defined.

Lemma create_appends_values e id now x s :
  JsMap.get id (table e s) = None ->
  JsMap.values (table e (create e id now x s).2)
  = JsMap.values (table e s) ++ [(create e id now x s).1].
Proof.
  intros Hfresh. rewrite create_table, (set_fresh _ _ _ Hfresh).
  unfold JsMap.values. rewrite fmap_app. reflexivity.
Qed.

(** X4. A create with an id that the map of its kind does not hold yet
    appends its record: the records of the map are the former ones, in
    their order, followed by the created one. *)
Theorem create_appends_the_record
    (e : kind) (id : string) (now : Z) (x : obj) (s : MemStorage) :
  JsMap.get id (table e s) = None ->
  JsMap.values (table e (create e id now x s).2)
  = JsMap.values (table e s) ++ [(create e id now x s).1].
Proof.
  intros Hfresh. pose proof (create_appends_values e id now x s Hfresh) as H.
  rewrite H. f_equal.
Qed.

Lemma create_appends_the_record_witness :
  JsMap.get "id-1" (table KEvent seeded) = None
  /\ getAllEvents (createEvent "id-1" final_game seeded).2
     = getAllEvents seeded ++ [(createEvent "id-1" final_game seeded).1].
Proof.
  assert (H : JsMap.get "id-1" (table KEvent seeded) = None) by reflexivity.
  split; [exact H|].
  exact (create_appends_the_record KEvent "id-1" 0 final_game seeded H).
Defined.

(** X5. A delete returns true exactly when a record was stored under the
    id; the map it leaves holds the other records, in their order. *)
Theorem delete_reports_and_removes
    (e : kind) (d : string -> MemStorage -> bool * MemStorage)
    (id : string) (s : MemStorage) :
  delete e = Some d ->
  ((d id s).1 = true <-> is_Some (JsMap.get id (table e s)))
  /\ table e (d id s).2
     = List.filter (fun kv => negb (bool_decide (kv.1 = id))) (table e s)
  /\ (forall e', e' <> e -> table e' (d id s).2 = table e' s).
Proof.
  intros Hd. destruct (delete_table e d id s Hd) as [Hret Htbl].
  split; [|split].
  - rewrite Hret. unfold JsMap.has. apply bool_decide_eq_true.
  - rewrite Htbl. apply remove_filter.
  - intros e' Hne.
    destruct e; try discriminate Hd; injection Hd as <-;
      destruct e'; try congruence; reflexivity.
Qed.

Lemma delete_reports_and_removes_witness :
  delete KAthlete = Some deleteAthlete
  /\ (deleteAthlete "id-profile" seeded).1 = true
  /\ users (deleteAthlete "id-profile" seeded).2 = users seeded.
Proof.
  split; [reflexivity|].
  destruct (delete_reports_and_removes KAthlete deleteAthlete "id-profile"
              seeded eq_refl) as (H1 & _ & H3).
  split.
  - apply H1. eexists. reflexivity.
  - apply (H3 KUser). discriminate.
Defined.

(** ** The fields of a created record *)

(** The optional fields that the create of a kind fills with
    [input.field || null]. *)
Definition nullable_fields (e : kind) : list string :=
  match e with
  | KUser => ["profilePicture"; "position"]
  | KAthlete =>
      ["height"; "weight"; "sleepHours"; "overallPerformance"; "lastTraining"]
  | KExercise => ["description"; "videoUrl"; "metrics"]
  | KTrainingSession => ["results"]
  | KEvent => ["description"; "endDate"; "mandatory"]
  | KGalleryItem => ["description"; "album"]
  | KBestOfWeek => ["achievements"]
  | KLiveStream => ["description"; "category"; "isActive"; "scheduledFor"]
  end.

(** All the fields that the create of a kind writes itself; every other
    field of the record comes from the spread of the input. *)
Definition written_fields (e : kind) : list string :=
  "id" :: nullable_fields e ++
  match e with
  | KUser => ["role"; "createdAt"]
  | KTrainingSession => ["completedAt"]
  | KGalleryItem => ["uploadedAt"]
  | _ => []
  end.

Lemma js_or_null a :
  (truthy a = true -> js_or a JNull = a)
  /\ (truthy a = false -> js_or a JNull = JNull)
  /\ js_or a JNull <> JUndefined.
Proof.
  unfold js_or. destruct (truthy a) eqn:Ha.
  - repeat split; try congruence. intros ->. discriminate Ha.
  - repeat split; congruence.
Qed.

Lemma create_nullable e id now x s f :
  f ∈ nullable_fields e ->
  (create e id now x s).1 !! f = Some (js_or (prop x f) JNull).
Proof.
  intros Hf.
  destruct e; simpl in Hf;
    repeat (apply elem_of_cons in Hf as [->|Hf]; [simpl; by simplify_map_eq|]);
    inversion Hf.
Qed.

(** X6. In the record that a create returns, each optional field of the
    kind holds the value of the input when that value is truthy, and null
    otherwise (when it is omitted, undefined, null, false, zero or the
    empty string); it is never missing and never undefined. *)
Theorem create_fills_optional_fields
    (e : kind) (id : string) (now : Z) (x : obj) (s : MemStorage) (f : string) :
  f ∈ nullable_fields e ->
  let r := (create e id now x s).1 in
  (truthy (prop x f) = true -> r !! f = Some (prop x f))
  /\ (truthy (prop x f) = false -> r !! f = Some JNull)
  /\ r !! f <> None
  /\ r !! f <> Some JUndefined.
Proof.
  intros Hf r. unfold r. rewrite (create_nullable e id now x s f Hf).
  destruct (js_or_null (prop x f)) as (H1 & H2 & H3).
  repeat split.
  - intros H. rewrite (H1 H). reflexivity.
  - intros H. rewrite (H2 H). reflexivity.
  - discriminate.
  - congruence.
Qed.

Lemma create_fills_optional_fields_witness :
  let x : obj := {[ "title" := JStr "NBB"; "description" := JStr "";
                    "isActive" := JBool false; "category" := JStr "nba" ]} in
  let r := (createLiveStream "id-1" x seeded).1 in
  ("description" ∈ nullable_fields KLiveStream)
  /\ r !! "description" = Some JNull
  /\ r !! "description" <> Some JUndefined.
Proof.
  intros x r.
  assert (H : "description" ∈ nullable_fields KLiveStream).
  { apply list_elem_of_here. }
  split; [exact H|].
  destruct (create_fills_optional_fields KLiveStream "id-1" 0 x seeded
              "description" H) as (_ & H2 & _ & H4).
  split; [apply H2; reflexivity | exact H4].
Defined.

Lemma create_passes e id now x s k :
  k ∉ written_fields e -> (create e id now x s).1 !! k = x !! k.
Proof.
  intros Hk. unfold written_fields in Hk.
  destruct e; simpl in Hk; rewrite !not_elem_of_cons in Hk;
    destruct_and!; simpl; rewrite !lookup_insert_ne by congruence; reflexivity.
Qed.

(** X7. A create copies every field that it does not write itself from the
    input as it is, whatever the field and its value (the store validates
    nothing); the id of the record is the generated one even when the
    input carries an id of its own. *)
Theorem create_copies_the_other_fields
    (e : kind) (id : string) (now : Z) (x : obj) (s : MemStorage) (k : string) :
  k ∉ written_fields e ->
  let r := (create e id now x s).1 in
  r !! k = x !! k /\ r !! "id" = Some (JStr id).
Proof.
  intros Hk r. split; [apply create_passes, Hk | apply create_id].
Qed.

Lemma create_copies_the_other_fields_witness :
  let x : obj := {[ "id" := JStr "mine"; "title" := JStr "Final";
                    "eventType" := JStr "party"; "colour" := JStr "red" ]} in
  let r := (createEvent "id-1" x seeded).1 in
  ("colour" ∉ written_fields KEvent)
  /\ r !! "colour" = Some (JStr "red") /\ r !! "id" = Some (JStr "id-1").
Proof.
  intros x r.
  assert (H : "colour" ∉ written_fields KEvent).
  { intros H. repeat (apply elem_of_cons in H as [H|H]; [discriminate H|]).
    inversion H. }
  split; [exact H|].
  exact (create_copies_the_other_fields KEvent "id-1" 0 x seeded "colour" H).
Defined.

(** X8. createUser gives the record the role of the input when that is
    truthy, whatever string it is, and the role "athlete" when the input
    has no role or a falsy one; the creation time is the current time even
    when the input carries a createdAt. *)
Theorem createUser_role_and_creation_time
    (id : string) (now : Z) (x : obj) (s : MemStorage) :
  let user := (createUser id now x s).1 in
  (truthy (prop x "role") = true -> user !! "role" = Some (prop x "role"))
  /\ (truthy (prop x "role") = false -> user !! "role" = Some (JStr "athlete"))
  /\ user !! "createdAt" = Some (JDate now).
Proof.
  intros user. unfold user. simpl. repeat split.
  - intros H. simplify_map_eq. unfold js_or. rewrite H. reflexivity.
  - intros H. simplify_map_eq. unfold js_or. rewrite H. reflexivity.
  - by simplify_map_eq.
Qed.

Lemma createUser_role_and_creation_time_witness :
  let x : obj := {[ "username" := JStr "ana"; "role" := JStr "coach";
                    "createdAt" := JDate 1 ]} in
  let user := (createUser "id-1" 2000 x seeded).1 in
  user !! "role" = Some (JStr "coach") /\ user !! "createdAt" = Some (JDate 2000).
Proof.
  intros x user.
  destruct (createUser_role_and_creation_time "id-1" 2000 x seeded)
    as (H1 & _ & H3).
  split; [apply H1; reflexivity | exact H3].
Defined.

(** ** Updates compose *)

(** X9. Two updates of the same id in a row are one update with the merge
    of the two partial records, the second one winning: they return the
    same record and leave the same store. *)
Theorem updates_compose
    (e : kind) (u : string -> obj -> MemStorage -> option obj * MemStorage)
    (id : string) (p1 p2 : obj) (s : MemStorage) :
  update e = Some u ->
  u id p2 (u id p1 s).2 = u id (spread2 p1 p2) s.
Proof.
  intros Hu.
  destruct (JsMap.get id (table e s)) as [old|] eqn:Hold.
  - destruct (update_table e u id p1 s Hu) as [Hret1 Htbl1].
    destruct (update_table e u id (spread2 p1 p2) s Hu) as [Hret12 Htbl12].
    destruct (update_table e u id p2 (u id p1 s).2 Hu) as [Hret2 Htbl2].
    specialize (Htbl1 old Hold). specialize (Htbl12 old Hold).
    assert (Hmid : JsMap.get id (table e (u id p1 s).2) = Some (spread2 old p1)).
    { rewrite Htbl1. apply get_set_eq. }
    specialize (Htbl2 _ Hmid).
    assert (Hassoc : spread2 (spread2 old p1) p2 = spread2 old (spread2 p1 p2)).
    { unfold spread2. apply (assoc_L (∪)). }
    rewrite Hret2, Hmid, Hret12, Hold, Hassoc. f_equal.
    apply MemStorage_eq. intros e'.
    destruct (decide (e' = e)) as [->|Hne].
    + rewrite Htbl2, Htbl12, Htbl1, set_set, Hassoc. reflexivity.
    + rewrite !(update_other_kind e u _ _ _ e' Hu Hne). reflexivity.
  - rewrite (update_absent e u id p1 s Hu Hold). simpl.
    rewrite (update_absent e u id p2 s Hu Hold).
    rewrite (update_absent e u id (spread2 p1 p2) s Hu Hold). reflexivity.
Qed.

Lemma updates_compose_witness :
  let p1 : obj := {[ "height" := JStr "1.86m"; "weight" := JStr "80kg" ]} in
  let p2 : obj := {[ "weight" := JStr "79kg" ]} in
  update KAthlete = Some updateAthlete
  /\ updateAthlete "id-profile" p2 (updateAthlete "id-profile" p1 seeded).2
     = updateAthlete "id-profile"
         {[ "height" := JStr "1.86m"; "weight" := JStr "79kg" ]} seeded.
Proof.
  intros p1 p2. split; [reflexivity|].
  rewrite (updates_compose KAthlete updateAthlete "id-profile" p1 p2 seeded eq_refl).
  reflexivity.
Defined.

(** X10. An update with an empty partial record returns the stored record
    (or the not-found signal) and leaves the store as it is. *)
Theorem update_with_nothing_changes_nothing
    (e : kind) (g : string -> MemStorage -> option obj)
    (u : string -> obj -> MemStorage -> option obj * MemStorage)
    (id : string) (s : MemStorage) :
  get e = Some g ->
  update e = Some u ->
  u id ∅ s = (g id s, s).
Proof.
  intros Hg Hu. rewrite (get_table e g id s Hg).
  destruct (JsMap.get id (table e s)) as [old|] eqn:Hold.
  - destruct (update_table e u id ∅ s Hu) as [Hret Htbl].
    specialize (Htbl old Hold).
    assert (Hsame : spread2 old ∅ = old).
    { unfold spread2. apply (left_id_L ∅ (∪)). }
    rewrite Hret, Hold, Hsame. f_equal.
    apply MemStorage_eq. intros e'.
    destruct (decide (e' = e)) as [->|Hne].
    + rewrite Htbl, Hsame. apply set_same, Hold.
    + apply (update_other_kind e u _ _ _ e' Hu Hne).
  - apply (update_absent e u id ∅ s Hu Hold).
Qed.

Lemma update_with_nothing_changes_nothing_witness :
  (get KUser = Some getUser /\ update KUser = Some updateUser)
  /\ updateUser "id-admin" ∅ seeded = (getUser "id-admin" seeded, seeded).
Proof.
  split; [split; reflexivity|].
  exact (update_with_nothing_changes_nothing KUser getUser updateUser
           "id-admin" seeded eq_refl eq_refl).
Defined.

(** ** Lookups by a field *)

Lemma strict_eq_str_true (r : obj) (k c : string) :
  strict_eq_str (prop r k) c = true <-> r !! k = Some (JStr c).
Proof.
  unfold prop, strict_eq_str.
  destruct (r !! k) as [[| | | |a| |]|]; simpl;
    try (split; [discriminate | congruence]).
  rewrite bool_decide_eq_true. split; congruence.
Qed.

Lemma bool_filter_sublist {A : Type} (f : A -> bool) (l : list A) :
  sublist (List.filter f l) l.
Proof.
  induction l as [|x l IH]; simpl; [constructor|].
  destruct (f x); [apply sublist_skip | apply sublist_cons]; exact IH.
Qed.

(** X11. createUser accepts a user whose username or email is already
    taken.  After a create with a new id, the lookup by username (by
    email) returns what it returned before when it found a user, and the
    created user otherwise: among users of the same name the one inserted
    first is found. *)
Theorem lookup_by_name_after_createUser
    (id : string) (now : Z) (x : obj) (s : MemStorage) (name mail : string) :
  JsMap.get id (users s) = None ->
  x !! "username" = Some (JStr name) ->
  x !! "email" = Some (JStr mail) ->
  let user := (createUser id now x s).1 in
  let s' := (createUser id now x s).2 in
  getUserByUsername name s'
    = match getUserByUsername name s with
      | Some first => Some first
      | None => Some user
      end
  /\ getUserByEmail mail s'
     = match getUserByEmail mail s with
       | Some first => Some first
       | None => Some user
       end.
Proof.
  intros Hfresh Hname Hmail user s'.
  assert (Hvalues : JsMap.values (users s') = JsMap.values (users s) ++ [user]).
  { apply (create_appends_values KUser id now x s Hfresh). }
  assert (Hn : strict_eq_str (prop user "username") name = true).
  { apply strict_eq_str_true. unfold user. simpl.
    rewrite !lookup_insert_ne by discriminate. exact Hname. }
  assert (Hm : strict_eq_str (prop user "email") mail = true).
  { apply strict_eq_str_true. unfold user. simpl.
    rewrite !lookup_insert_ne by discriminate. exact Hmail. }
  unfold getUserByUsername, getUserByEmail.
  rewrite Hvalues, !array_find_app. simpl. rewrite Hn, Hm. split; reflexivity.
Qed.

Lemma lookup_by_name_after_createUser_witness :
  let x : obj := {[ "username" := JStr "admin"; "email" := JStr "ana@lions.com";
                    "password" := JStr "secret" ]} in
  let user := (createUser "id-1" 2000 x seeded).1 in
  let s' := (createUser "id-1" 2000 x seeded).2 in
  (JsMap.get "id-1" (users seeded) = None
   /\ x !! "username" = Some (JStr "admin")
   /\ x !! "email" = Some (JStr "ana@lions.com"))
  /\ getUserByUsername "admin" s' = getUser "id-admin" seeded
  /\ getUserByEmail "ana@lions.com" s' = Some user.
Proof.
  intros x user s'.
  assert (H1 : JsMap.get "id-1" (users seeded) = None) by reflexivity.
  assert (H2 : x !! "username" = Some (JStr "admin")) by reflexivity.
  assert (H3 : x !! "email" = Some (JStr "ana@lions.com")) by reflexivity.
  split; [repeat split; assumption|].
  destruct (lookup_by_name_after_createUser "id-1" 2000 x seeded
              "admin" "ana@lions.com" H1 H2 H3) as [Hn Hm].
  split; [exact (eq_trans Hn eq_refl) | exact (eq_trans Hm eq_refl)].
Defined.

(** X12. The lookups of exercises by category and of training sessions by
    athlete return exactly the stored records whose field is that string,
    in the order of the full list; a record whose field is another string,
    or no string, is left out. *)
Theorem lookups_by_field_select_exactly
    (s : MemStorage) (category athleteId : string) (r : obj) :
  (r ∈ getExercisesByCategory category s
     <-> r ∈ getAllExercises s /\ r !! "category" = Some (JStr category))
  /\ (r ∈ getTrainingSessionsByAthlete athleteId s
        <-> r ∈ JsMap.values (trainingSessions s)
            /\ r !! "athleteId" = Some (JStr athleteId))
  /\ sublist (getExercisesByCategory category s) (getAllExercises s)
  /\ sublist (getTrainingSessionsByAthlete athleteId s)
       (JsMap.values (trainingSessions s)).
Proof.
  unfold getExercisesByCategory, getTrainingSessionsByAthlete, getAllExercises.
  rewrite !elem_of_bool_filter, !strict_eq_str_true.
  repeat split; try tauto; apply bool_filter_sublist.
Qed.

(** X13. getActiveLiveStreams returns exactly the stored streams whose
    isActive is truthy.  A stream created without isActive, or with
    isActive false, is stored with isActive null and is not among them; a
    stream created with isActive true is. *)
Theorem active_live_streams
    (id : string) (x : obj) (s : MemStorage) (r : obj) :
  let stream := (createLiveStream id x s).1 in
  let s' := (createLiveStream id x s).2 in
  (r ∈ getActiveLiveStreams s
     <-> r ∈ getAllLiveStreams s /\ truthy (prop r "isActive") = true)
  /\ (truthy (prop x "isActive") = false ->
      stream !! "isActive" = Some JNull /\ stream ∉ getActiveLiveStreams s')
  /\ (x !! "isActive" = Some (JBool true) ->
      stream !! "isActive" = Some (JBool true) /\ stream ∈ getActiveLiveStreams s').
Proof.
  intros stream s'.
  assert (Hstored : stream ∈ getAllLiveStreams s').
  { apply (get_Some_values id). apply get_set_eq. }
  assert (Hfield : stream !! "isActive" = Some (js_or (prop x "isActive") JNull)).
  { unfold stream. simpl. by simplify_map_eq. }
  unfold getActiveLiveStreams.
  split; [rewrite elem_of_bool_filter; reflexivity|]. split.
  - intros Hfalsy. unfold js_or in Hfield. rewrite Hfalsy in Hfield.
    split; [exact Hfield|].
    rewrite elem_of_bool_filter. intros [_ H].
    rewrite (prop_present _ _ _ Hfield) in H. discriminate H.
  - intros Htrue. rewrite (prop_present _ _ _ Htrue) in Hfield.
    split; [exact Hfield|].
    apply elem_of_bool_filter. split; [exact Hstored|].
    rewrite (prop_present _ _ _ Hfield). reflexivity.
Qed.

Lemma active_live_streams_witness :
  let x : obj := {[ "title" := JStr "NBB"; "isActive" := JBool false ]} in
  let stream := (createLiveStream "id-1" x seeded).1 in
  let s' := (createLiveStream "id-1" x seeded).2 in
  truthy (prop x "isActive") = false
  /\ stream !! "isActive" = Some JNull
  /\ stream ∉ getActiveLiveStreams s'.
Proof.
  intros x stream s'.
  assert (H : truthy (prop x "isActive") = false) by reflexivity.
  split; [exact H|].
  exact (proj1 (proj2 (active_live_streams "id-1" x seeded ∅)) H).
Defined.

(** ** The week of a boundary *)

Section SameWeek.

Import JsDate.

Variable tz : zone.

Lemma week_start_day_is_sunday t : (Day t - WeekDay t + 4) `mod` 7 = 0.
Proof.
  unfold WeekDay.
  pose proof (Z.div_mod (Day t + 4) 7 ltac:(lia)) as Hdm.
  replace (Day t - (Day t + 4) `mod` 7 + 4)
    with (((Day t + 4) `div` 7) * 7) by lia.
  apply Z.mod_mul. lia.
Qed.

Lemma getStartOfWeek_same_week c t t' :
  steady tz c (t - 14 * msPerDay) (t + 7 * msPerDay) ->
  getStartOfWeek tz t <= t' < getStartOfWeek tz t + 7 * msPerDay ->
  getStartOfWeek tz t' = getStartOfWeek tz t.
Proof.
  intros Hst.
  assert (Hst_t : steady tz c (t - 7 * msPerDay) t).
  { revert Hst. apply steady_mono; unfold msPerDay; lia. }
  destruct (getStartOfWeek_sunday_midnight tz c t Hst_t)
    as (_ & _ & _ & _ & _ & Hstart & _).
  intros Hweek.
  assert (Hst_t' : steady tz c (t' - 7 * msPerDay) t').
  { revert Hst. apply steady_mono; unfold msPerDay in *; lia. }
  clear Hstart. revert Hweek.
  rewrite (getStartOfWeek_closed tz c t Hst_t).
  rewrite (getStartOfWeek_closed tz c t' Hst_t').
  set (D0 := Day (t + c) - WeekDay (t + c)).
  pose proof (week_start_day_is_sunday (t + c)) as Hsun. fold D0 in Hsun.
  intros Hweek.
  pose proof (Day_bounds (t' + c)) as Hday.
  set (D := Day (t' + c)) in *.
  assert (HD : D0 <= D <= D0 + 6) by (unfold msPerDay in *; lia).
  assert (Hwd : WeekDay (t' + c) = D - D0).
  { unfold WeekDay. fold D.
    pose proof (Z.div_mod (D0 + 4) 7 ltac:(lia)) as HD0. rewrite Hsun in HD0.
    symmetry. apply (Z.mod_unique_pos _ _ ((D0 + 4) `div` 7)); lia. }
  rewrite Hwd. f_equal. f_equal. lia.
Qed.

End SameWeek.

Lemma find_weekStart_app boundary (l1 l2 : list obj) :
  find_weekStart boundary (l1 ++ l2)
  = match find_weekStart boundary l1 with
    | Returns None => find_weekStart boundary l2
    | completion => completion
    end.
Proof.
  induction l1 as [|best l1 IH]; simpl; [reflexivity|].
  destruct (getTime (prop best "weekStart")) as [t|]; [|reflexivity].
  destruct (bool_decide (t = boundary)); [reflexivity | exact IH].
Qed.

Lemma setBestOfWeek_weekStart id x s :
  prop (setBestOfWeek id x s).1 "weekStart" = prop x "weekStart".
Proof.
  unfold prop, setBestOfWeek. cbn [fst].
  rewrite !lookup_insert_ne by discriminate. reflexivity.
Qed.

(** X14. On a host whose offset from UTC does not change from fourteen
    days before [t] to seven days after it, getStartOfWeek gives one
    boundary for the whole week: every time from the boundary of [t] up to
    seven days later has the same boundary, and the boundary is its own
    boundary. *)
Theorem week_boundary_is_stable (tz : JsDate.zone) (c t t' : Z) :
  steady tz c (t - 14 * JsDate.msPerDay) (t + 7 * JsDate.msPerDay) ->
  let start := getStartOfWeek tz t in
  (start <= t' < start + 7 * JsDate.msPerDay -> getStartOfWeek tz t' = start)
  /\ getStartOfWeek tz start = start.
Proof.
  intros Hst start. split; [apply (getStartOfWeek_same_week tz c), Hst|].
  apply (getStartOfWeek_same_week tz c); [exact Hst|].
  unfold JsDate.msPerDay. lia.
Qed.

Lemma week_boundary_is_stable_witness :
  (steady (JsDate.fixed_zone (-10800000)) (-10800000)
     (1793664000123 - 14 * JsDate.msPerDay) (1793664000123 + 7 * JsDate.msPerDay)
   /\ getStartOfWeek (JsDate.fixed_zone (-10800000)) 1793664000123
        <= 1794106799999
        < getStartOfWeek (JsDate.fixed_zone (-10800000)) 1793664000123
          + 7 * JsDate.msPerDay)
  /\ getStartOfWeek (JsDate.fixed_zone (-10800000)) 1794106799999
     = getStartOfWeek (JsDate.fixed_zone (-10800000)) 1793664000123.
Proof.
  pose proof (fixed_zone_steady (-10800000)
                (1793664000123 - 14 * JsDate.msPerDay)
                (1793664000123 + 7 * JsDate.msPerDay)) as Hst.
  assert (Hw : getStartOfWeek (JsDate.fixed_zone (-10800000)) 1793664000123
                 <= 1794106799999
                 < getStartOfWeek (JsDate.fixed_zone (-10800000)) 1793664000123
                   + 7 * JsDate.msPerDay).
  { vm_compute. split; [discriminate | reflexivity]. }
  split; [split; [exact Hst | exact Hw]|].
  exact (proj1 (week_boundary_is_stable (JsDate.fixed_zone (-10800000))
                  (-10800000) 1793664000123 1794106799999 Hst) Hw).
Defined.

(** The hypothesis on the offset is needed.  In a zone five hours behind
    UTC that moves its clock forward by one hour on Sunday 2026-03-08 at
    02:00 local time (07:00 UTC), as America/New_York does, the week after
    the transition starts less than seven days after the week before. *)
Definition spring_forward_zone : JsDate.zone :=
  JsDate.mkZone
    (fun t => if t <? 1772953200000 then -18000000 else -14400000)
    (fun l => if l <? 1772938800000 then -18000000 else -14400000).

Lemma week_with_transition_is_shorter :
  getStartOfWeek spring_forward_zone 1773144000000 = 1772946000000
  /\ 1772946000000 <= 1773549000000 < 1772946000000 + 7 * JsDate.msPerDay
  /\ getStartOfWeek spring_forward_zone 1773549000000 = 1773547200000.
Proof.
  split; [vm_compute; reflexivity|].
  split; [vm_compute; split; [discriminate | reflexivity]|].
  vm_compute. reflexivity.
Qed.

(** X15. On a host whose offset from UTC does not change from fourteen
    days before [t] to seven days after it, a record set with a new id and
    with the boundary of [t] as its weekStart is the current best of the
    week at every time of that week, unless the lookup already found an
    earlier record or raised: the lookup then still completes as it did
    before. *)
Theorem best_of_week_is_current_all_week
    (tz : JsDate.zone) (c t now : Z) (id : string) (x : obj) (s : MemStorage) :
  steady tz c (t - 14 * JsDate.msPerDay) (t + 7 * JsDate.msPerDay) ->
  JsMap.get id (bestOfWeeks s) = None ->
  x !! "weekStart" = Some (JDate (getStartOfWeek tz t)) ->
  getStartOfWeek tz t <= now < getStartOfWeek tz t + 7 * JsDate.msPerDay ->
  let best := (setBestOfWeek id x s).1 in
  let s' := (setBestOfWeek id x s).2 in
  getCurrentBestOfWeek tz now s'
  = match getCurrentBestOfWeek tz now s with
    | Returns None => Returns (Some best)
    | completion => completion
    end.
Proof.
  intros Hst Hfresh Hx Hweek best s'.
  unfold getCurrentBestOfWeek.
  rewrite (getStartOfWeek_same_week tz c t now Hst Hweek).
  clear Hweek Hst. revert Hx. generalize (getStartOfWeek tz t). intros w Hx.
  assert (Hvalues : JsMap.values (bestOfWeeks s')
                    = JsMap.values (bestOfWeeks s) ++ [best]).
  { apply (create_appends_values KBestOfWeek id 0 x s Hfresh). }
  rewrite Hvalues, find_weekStart_app.
  assert (Hbest : prop best "weekStart" = JDate w).
  { unfold best. rewrite setBestOfWeek_weekStart. apply prop_present, Hx. }
  cbn [find_weekStart]. rewrite Hbest. cbn [getTime].
  rewrite bool_decide_eq_true_2 by reflexivity. reflexivity.
Qed.

Lemma best_of_week_is_current_all_week_witness :
  (steady (JsDate.fixed_zone (-10800000)) (-10800000)
     (1793664000123 - 14 * JsDate.msPerDay) (1793664000123 + 7 * JsDate.msPerDay)
   /\ JsMap.get "id-1" (bestOfWeeks seeded) = None
   /\ week_of_joao !! "weekStart"
      = Some (JDate (getStartOfWeek (JsDate.fixed_zone (-10800000)) 1793664000123))
   /\ getStartOfWeek (JsDate.fixed_zone (-10800000)) 1793664000123
        <= 1794020400000
        < getStartOfWeek (JsDate.fixed_zone (-10800000)) 1793664000123
          + 7 * JsDate.msPerDay)
  /\ getCurrentBestOfWeek (JsDate.fixed_zone (-10800000)) 1794020400000
       (setBestOfWeek "id-1" week_of_joao seeded).2
     = Returns (Some (setBestOfWeek "id-1" week_of_joao seeded).1).
Proof.
  pose proof (fixed_zone_steady (-10800000)
                (1793664000123 - 14 * JsDate.msPerDay)
                (1793664000123 + 7 * JsDate.msPerDay)) as Hst.
  assert (H1 : JsMap.get "id-1" (bestOfWeeks seeded) = None) by reflexivity.
  assert (H2 : week_of_joao !! "weekStart"
               = Some (JDate (getStartOfWeek (JsDate.fixed_zone (-10800000))
                                1793664000123)))
    by (vm_compute; reflexivity).
  assert (H3 : getStartOfWeek (JsDate.fixed_zone (-10800000)) 1793664000123
                 <= 1794020400000
                 < getStartOfWeek (JsDate.fixed_zone (-10800000)) 1793664000123
                   + 7 * JsDate.msPerDay).
  { vm_compute. split; [discriminate | reflexivity]. }
  split; [split; [exact Hst | split; [exact H1 | split; [exact H2 | exact H3]]]|].
  etrans;
    [ exact (best_of_week_is_current_all_week (JsDate.fixed_zone (-10800000))
               (-10800000) 1793664000123 1794020400000 "id-1" week_of_joao
               seeded Hst H1 H2 H3)
    | vm_compute; reflexivity ].
Defined.

(** X16. setBestOfWeek stores an input whose weekStart is not a [Date]
    (or is missing) as it is; from then on, at every time at which no
    earlier record is the current one, getCurrentBestOfWeek raises. *)
Theorem best_of_week_without_date_makes_lookup_raise
    (tz : JsDate.zone) (now : Z) (id : string) (x : obj) (s : MemStorage) :
  JsMap.get id (bestOfWeeks s) = None ->
  getTime (prop x "weekStart") = None ->
  getCurrentBestOfWeek tz now s = Returns None ->
  let s' := (setBestOfWeek id x s).2 in
  JsMap.get id (bestOfWeeks s') = Some (setBestOfWeek id x s).1
  /\ getCurrentBestOfWeek tz now s' = Throws.
Proof.
  intros Hfresh Hx Hnone s'. split; [apply get_set_eq|].
  unfold getCurrentBestOfWeek in *.
  assert (Hvalues : JsMap.values (bestOfWeeks s')
                    = JsMap.values (bestOfWeeks s) ++ [(setBestOfWeek id x s).1]).
  { apply (create_appends_values KBestOfWeek id 0 x s Hfresh). }
  rewrite Hvalues, find_weekStart_app, Hnone.
  cbn [find_weekStart]. rewrite setBestOfWeek_weekStart, Hx. reflexivity.
Qed.

Lemma best_of_week_without_date_makes_lookup_raise_witness :
  let x : obj := {[ "athleteId" := JStr "id-profile";
                    "weekStart" := JStr "2026-11-01T03:00:00.000Z" ]} in
  (JsMap.get "id-1" (bestOfWeeks seeded) = None
   /\ getTime (prop x "weekStart") = None
   /\ getCurrentBestOfWeek (JsDate.fixed_zone 0) 5000 seeded = Returns None)
  /\ getCurrentBestOfWeek (JsDate.fixed_zone 0) 5000 (setBestOfWeek "id-1" x seeded).2 = Throws.
Proof.
  intros x.
  assert (H1 : JsMap.get "id-1" (bestOfWeeks seeded) = None) by reflexivity.
  assert (H2 : getTime (prop x "weekStart") = None) by reflexivity.
  assert (H3 : getCurrentBestOfWeek (JsDate.fixed_zone 0) 5000 seeded = Returns None) by reflexivity.
  split; [repeat split; assumption|].
  exact (proj2 (best_of_week_without_date_makes_lookup_raise (JsDate.fixed_zone 0)
                  5000 "id-1" x
                  seeded H1 H2 H3)).
Defined.

(** ** Lists and point lookups agree *)

Lemma elem_get k r (m : JsMap.t) :
  NoDup (JsMap.keys m) -> (k, r) ∈ m -> JsMap.get k m = Some r.
Proof.
  unfold JsMap.keys. induction m as [|[k0 v0] m IH]; simpl; intros Hnd Hin.
  - inversion Hin.
  - apply NoDup_cons in Hnd as [Hk0 Hnd].
    apply elem_of_cons in Hin. destruct Hin as [Heq|Hin].
    + injection Heq as -> ->. destruct (decide (k0 = k0)); congruence.
    + destruct (decide (k = k0)) as [->|Hne]; [|apply IH; assumption].
      exfalso. apply Hk0. apply list_elem_of_fmap. exists (k0, r). split; [reflexivity | exact Hin].
Qed.

(** X17. In every store reached from the constructor, the ids of each map
    are pairwise distinct; and when no update of the history was given a
    foreign id, every record that a list lookup can return carries an id
    under which the point lookup returns that record. *)
Theorem listed_records_are_found_by_their_id
    (adminId athleteId profileId : string) (now1 now2 now3 : Z)
    (cs : list call) (e : kind) :
  let s := run cs (constructor adminId athleteId profileId now1 now2 now3) in
  NoDup (JsMap.keys (table e s))
  /\ (Forall keeps_id cs ->
      forall r, r ∈ JsMap.values (table e s) ->
        exists k, id_of r = Some k /\ JsMap.get k (table e s) = Some r).
Proof.
  intros s.
  assert (Hnd : NoDup (JsMap.keys (table e s))).
  { apply run_NoDup. intros e'. apply constructor_NoDup. }
  split; [exact Hnd|].
  intros Hcs r Hr. unfold JsMap.values in Hr.
  apply list_elem_of_fmap in Hr as ([k r'] & -> & Hin). simpl.
  pose proof (elem_get k r' _ Hnd Hin) as Hget.
  exists k. split; [|exact Hget].
  assert (Hid : id_is_key (table e s)).
  { apply run_id_is_key; [exact Hcs|]. intros e'. apply constructor_id_is_key. }
  unfold id_of. rewrite (Hid k r' Hget). reflexivity.
Qed.

Lemma listed_records_are_found_by_their_id_witness :
  let cs := [CreateEvent "id-1" final_game;
             UpdateEvent "id-1" {[ "title" := JStr "Semi-final" ]}] in
  Forall keeps_id cs
  /\ forall r, r ∈ getAllEvents (run cs seeded) ->
       exists k, id_of r = Some k /\ getEvent k (run cs seeded) = Some r.
Proof.
  intros cs.
  assert (H : Forall keeps_id cs).
  { repeat apply Forall_cons_2; [exact I | left; reflexivity | apply Forall_nil_2]. }
  split; [exact H|].
  exact (proj2 (listed_records_are_found_by_their_id "id-admin" "id-joao"
                  "id-profile" 1000 1000 1000 cs KEvent) H).
Defined.

(** ** The seed *)

(** The first record of a search has the string looked for. *)
Ltac find_hit :=
  match goal with
  | |- context [strict_eq_str (prop ?r ?k) ?c] =>
      let H := fresh in
      assert (H : strict_eq_str (prop r k) c = true)
        by (apply strict_eq_str_true; by simplify_map_eq);
      rewrite H; reflexivity
  end.

(** X18. The store that the constructor leaves holds the sample athlete's
    user under the second generated id, with the athlete profile that
    refers to it under the third, and nothing but users and athletes; when
    the first two generated ids differ it also holds the administrator,
    who is the user that the lookup by the name "admin" finds. *)
Theorem constructor_seeds_linked_records
    (adminId athleteId profileId : string) (now1 now2 now3 : Z) :
  let s := constructor adminId athleteId profileId now1 now2 now3 in
  (exists joao, getUser athleteId s = Some joao
     /\ joao !! "username" = Some (JStr "joao")
     /\ joao !! "role" = Some (JStr "athlete"))
  /\ (exists profile, getAthleteByUserId athleteId s = Some profile
        /\ getAthlete profileId s = Some profile
        /\ profile !! "userId" = Some (JStr athleteId)
        /\ getAllAthletes s = [profile])
  /\ (adminId <> athleteId ->
      exists admin, getUserByUsername "admin" s = Some admin
        /\ getUser adminId s = Some admin
        /\ admin !! "role" = Some (JStr "admin")
        /\ admin !! "password" = Some (JStr "admin123"))
  /\ (forall e, e <> KUser -> e <> KAthlete -> table e s = []).
Proof.
  intros s. unfold getUser, getAthleteByUserId, getAthlete, getAllAthletes,
    getUserByUsername, s. seed_maps. split; [|split; [|split]].
  - eexists. split; [apply get_set_eq|]. split; by simplify_map_eq.
  - eexists. split.
    { cbn [JsMap.set JsMap.empty JsMap.values fmap list_fmap snd array_find].
      find_hit. }
    split; [apply get_set_eq|]. split; [by simplify_map_eq | reflexivity].
  - intros Hne. cbn [JsMap.set JsMap.empty].
    destruct (decide (athleteId = adminId)) as [Heq|_]; [congruence|].
    eexists. split.
    { cbn [JsMap.values fmap list_fmap snd array_find]. find_hit. }
    split.
    { cbn [JsMap.get]. destruct (decide (adminId = adminId)); congruence. }
    split; by simplify_map_eq.
  - intros e He1 He2. destruct e; try congruence; reflexivity.
Qed.

Lemma constructor_seeds_linked_records_witness :
  "id-admin" <> "id-joao"
  /\ exists admin, getUserByUsername "admin" seeded = Some admin
       /\ getUser "id-admin" seeded = Some admin
       /\ admin !! "role" = Some (JStr "admin")
       /\ admin !! "password" = Some (JStr "admin123").
Proof.
  assert (H : "id-admin" <> "id-joao") by discriminate.
  split; [exact H|].
  exact (proj1 (proj2 (proj2 (constructor_seeds_linked_records "id-admin"
                  "id-joao" "id-profile" 1000 1000 1000))) H).
Defined.


(** * The route layer (server/routes.ts)

    A handler is a function from the parts of the request it reads and the
    store to the response it sends and the store it leaves.  The body of a
    request is the object that the JSON body parser has produced, a query
    parameter is absent or a string, and a route parameter is a string.
    The handlers have no name in the source; they are named here after
    their method and path. *)

Module Routes.

(** What a handler passes to [res.json], or nothing for [res.send()]. *)
Inductive payload : Type :=
| Json (v : jsval)
| JsonArray (l : list obj)
| Empty.

Record response : Type := mkResponse { status : Z; sent : payload }.

(** [res.status(code).json({ message })] *)
Definition message (code : Z) (text : string) : response :=
  mkResponse code (Json (JObj {[ "message" := JStr text ]})).

(** [res.json(v)], with the default status. *)
Definition ok (v : jsval) : response := mkResponse 200 (Json v).

(** A value that may be [undefined]. *)
Definition or_undefined (o : option obj) : jsval :=
  match o with
  | Some r => JObj r
  | None => JUndefined
  end.

(** [a === b] between a value held by the store and a value of the
    request: primitives are compared by value; an object of the request is
    never the same object as one of the store. *)
Definition strict_eq (a b : jsval) : bool :=
  match a, b with
  | JUndefined, JUndefined => true
  | JNull, JNull => true
  | JBool x, JBool y => Bool.eqb x y
  | JNum x, JNum y => x =? y
  | JStr x, JStr y => bool_decide (x = y)
  | _, _ => false
  end.

(** [map.get(v)] for an arbitrary value: the keys of the maps are strings. *)
Definition map_get (v : jsval) (m : JsMap.t) : option obj :=
  match v with
  | JStr k => JsMap.get k m
  | _ => None
  end.

(** [storage.getUserByUsername(v)] and [storage.getUserByEmail(v)] as the
    handlers call them, with a value of the request that need not be a
    string. *)
Definition userByUsername (v : jsval) (s : MemStorage) : option obj :=
  array_find (fun user => strict_eq (prop user "username") v)
    (JsMap.values (users s)).

Definition userByEmail (v : jsval) (s : MemStorage) : option obj :=
  array_find (fun user => strict_eq (prop user "email") v)
    (JsMap.values (users s)).

(** The user object of the two authentication responses. *)
Definition public_user (user : obj) : obj :=
  {[ "id" := prop user "id";
     "username" := prop user "username";
     "email" := prop user "email";
     "role" := prop user "role";
     "fullName" := prop user "fullName";
     "profilePicture" := prop user "profilePicture";
     "position" := prop user "position" ]}.

(** POST /api/auth/login *)
Definition post_auth_login (body : obj) (s : MemStorage) : response :=
  let username := prop body "username" in
  let password := prop body "password" in
  if negb (truthy username) || negb (truthy password) then
    message 400 "Username and password are required"
  else
    match userByUsername username s with
    | None => message 401 "Invalid credentials"
    | Some user =>
        if negb (strict_eq (prop user "password") password) then
          message 401 "Invalid credentials"
        else ok (JObj {[ "user" := JObj (public_user user) ]})
    end.

(** GET /api/users/:id *)
Definition get_users_id (id : string) (s : MemStorage) : response :=
  match getUser id s with
  | None => message 404 "User not found"
  | Some user => ok (JObj user)
  end.

(** [{ ...athlete, user }] with [user = await storage.getUser(athlete.userId)] *)
Definition with_user (athlete : obj) (s : MemStorage) : obj :=
  let user := map_get (prop athlete "userId") (users s) in
  <["user" := or_undefined user]> athlete.

(** GET /api/athletes *)
Definition get_athletes (s : MemStorage) : response :=
  let athletes := getAllAthletes s in
  let athletesWithUsers := List.map (fun athlete => with_user athlete s) athletes in
  mkResponse 200 (JsonArray athletesWithUsers).

(** GET /api/athletes/:id *)
Definition get_athletes_id (id : string) (s : MemStorage) : response :=
  match getAthlete id s with
  | None => message 404 "Athlete not found"
  | Some athlete => ok (JObj (with_user athlete s))
  end.

(** The four PUT handlers: the body goes to the update as it is. *)
Definition put
    (update : string -> obj -> MemStorage -> option obj * MemStorage)
    (notFound : string) (id : string) (body : obj) (s : MemStorage)
    : response * MemStorage :=
  let updates := body in
  let '(result, s') := update id updates s in
  match result with
  | None => (message 404 notFound, s')
  | Some record => (ok (JObj record), s')
  end.

Definition put_athletes_id := put updateAthlete "Athlete not found".
Definition put_exercises_id := put updateExercise "Exercise not found".
Definition put_events_id := put updateEvent "Event not found".
Definition put_live_streams_id := put updateLiveStream "Live stream not found".

(** The five DELETE handlers. *)
Definition del
    (delete : string -> MemStorage -> bool * MemStorage)
    (notFound : string) (id : string) (s : MemStorage)
    : response * MemStorage :=
  let '(success, s') := delete id s in
  if negb success then (message 404 notFound, s')
  else (mkResponse 204 Empty, s').

Definition delete_athletes_id := del deleteAthlete "Athlete not found".
Definition delete_exercises_id := del deleteExercise "Exercise not found".
Definition delete_events_id := del deleteEvent "Event not found".
Definition delete_gallery_id := del deleteGalleryItem "Gallery item not found".
Definition delete_live_streams_id := del deleteLiveStream "Live stream not found".

(** A query parameter used as a condition: absent and empty are falsy. *)
Definition given (q : option string) : option string :=
  match q with
  | Some v => if String.eqb v "" then None else Some v
  | None => None
  end.

(** GET /api/exercises *)
Definition get_exercises (category : option string) (s : MemStorage) : response :=
  let exercises :=
    match given category with
    | Some c => getExercisesByCategory c s
    | None => getAllExercises s
    end in
  mkResponse 200 (JsonArray exercises).

(** GET /api/training-sessions *)
Definition get_training_sessions (athleteId : option string)
    (s : MemStorage) : response :=
  match given athleteId with
  | Some a => mkResponse 200 (JsonArray (getTrainingSessionsByAthlete a s))
  | None => message 400 "athleteId is required"
  end.

(** GET /api/events; [now] is the time of the call of getUpcomingEvents. *)
Definition get_events (upcoming : option string) (now : Z)
    (s : MemStorage) : response :=
  let events :=
    if bool_decide (upcoming = Some "true") then getUpcomingEvents now s
    else getAllEvents s in
  mkResponse 200 (JsonArray events).

(** GET /api/gallery *)
Definition get_gallery (album : option string) (s : MemStorage) : response :=
  let items :=
    match given album with
    | Some a => getGalleryItemsByAlbum a s
    | None => getAllGalleryItems s
    end in
  mkResponse 200 (JsonArray items).

(** GET /api/live-streams *)
Definition get_live_streams (active : option string) (s : MemStorage) : response :=
  let streams :=
    if bool_decide (active = Some "true") then getActiveLiveStreams s
    else getAllLiveStreams s in
  mkResponse 200 (JsonArray streams).

(** GET /api/best-of-week: a lookup that raises is caught and answered
    with 500. *)
Definition get_best_of_week (tz : JsDate.zone) (now : Z)
    (s : MemStorage) : response :=
  match getCurrentBestOfWeek tz now s with
  | Throws => message 500 "Internal server error"
  | Returns None => message 404 "No best of week set"
  | Returns (Some bestOfWeek) =>
      let athlete := map_get (prop bestOfWeek "athleteId") (athletes s) in
      let user :=
        match athlete with
        | Some a => or_undefined (map_get (prop a "userId") (users s))
        | None => JNull
        end in
      let spreadAthlete : obj := default ∅ athlete in
      ok (JObj (<["athlete" := JObj (<["user" := user]> spreadAthlete)]> bestOfWeek))
  end.

Section Register.

(** [insertUserSchema.parse]: the schema is built by a library from the
    table declaration; here it is any function that returns the validated
    data or fails. *)
Variable parse : obj -> option obj.

(** POST /api/auth/register; [userId], [now] and [profileId] are what the
    two creates draw from the environment. *)
Definition post_auth_register (userId : string) (now : Z) (profileId : string)
    (body : obj) (s : MemStorage) : response * MemStorage :=
  match parse body with
  | None => (message 400 "Invalid user data", s)
  | Some userData =>
      match userByUsername (prop userData "username") s with
      | Some existingUser => (message 400 "Username already exists", s)
      | None =>
          match userByEmail (prop userData "email") s with
          | Some existingEmail => (message 400 "Email already exists", s)
          | None =>
              let '(user, s) := createUser userId now userData s in
              let s :=
                if strict_eq (prop userData "role") (JStr "athlete") then
                  (createAthlete profileId
                     {[ "userId" := prop user "id";
                        "height" := JNull;
                        "weight" := JNull;
                        "sleepHours" := JNull;
                        "overallPerformance" := JStr "0";
                        "lastTraining" := JNull ]} s).2
                else s in
              (mkResponse 201 (Json (JObj {[ "user" := JObj (public_user user) ]})), s)
          end
      end
  end.

End Register.

End Routes.

(** ** Properties of the handlers *)

Section RouteFacts.

Import Routes.

Lemma array_find_None {A : Type} (p : A -> bool) (l : list A) :
  array_find p l = None <-> forall x, x ∈ l -> p x = false.
Proof.
  induction l as [|y l IH]; simpl.
  - split; [intros _ x Hx; inversion Hx | reflexivity].
  - destruct (p y) eqn:Hy.
    + split; [discriminate|]. intros H.
      rewrite (H y (list_elem_of_here _ _)) in Hy. discriminate.
    + rewrite IH. split.
      * intros H x Hx. apply elem_of_cons in Hx as [->|Hx]; [exact Hy | apply H, Hx].
      * intros H x Hx. apply H, list_elem_of_further, Hx.
Qed.

Lemma array_find_Some {A : Type} (p : A -> bool) (l : list A) (x : A) :
  array_find p l = Some x -> x ∈ l /\ p x = true.
Proof.
  induction l as [|y l IH]; simpl; [discriminate|].
  destruct (p y) eqn:Hy.
  - intros [= <-]. split; [apply list_elem_of_here | exact Hy].
  - intros H. destruct (IH H) as [Hin Hp].
    split; [apply list_elem_of_further, Hin | exact Hp].
Qed.

Lemma strict_eq_str_agrees (v : jsval) (c : string) :
  strict_eq v (JStr c) = strict_eq_str v c.
Proof. destruct v; reflexivity. Qed.

(** With a string the handlers' calls are the lookups of the store. *)
Lemma userByUsername_string (name : string) (s : MemStorage) :
  userByUsername (JStr name) s = getUserByUsername name s.
Proof.
  unfold userByUsername, getUserByUsername.
  induction (JsMap.values (users s)) as [|u l IH]; simpl; [reflexivity|].
  rewrite strict_eq_str_agrees, IH. reflexivity.
Qed.

Lemma public_user_no_password (user : obj) : public_user user !! "password" = None.
Proof. unfold public_user. by simplify_map_eq. Qed.

(** X19. The login answers 200 exactly when the request carries a truthy
    username and password and the first stored user of that name has
    exactly that password; the answer then carries that user without the
    password field.  Every other request is answered with 400 or 401. *)
Theorem login_checks_the_first_user_of_the_name (body : obj) (s : MemStorage) :
  let username := prop body "username" in
  let password := prop body "password" in
  let r := post_auth_login body s in
  (status r = 200 <->
     truthy username = true /\ truthy password = true
     /\ exists user, userByUsername username s = Some user
          /\ strict_eq (prop user "password") password = true)
  /\ (status r = 200 ->
      exists user o, userByUsername username s = Some user
        /\ sent r = Json (JObj {[ "user" := JObj o ]})
        /\ o !! "password" = None
        /\ o !! "username" = Some (prop user "username"))
  /\ (status r = 200 \/ status r = 400 \/ status r = 401).
Proof.
  intros username password r. unfold r, post_auth_login.
  fold username password.
  destruct (truthy username) eqn:Hu; simpl.
  2:{ split; [split; [discriminate | intros (H & _); discriminate]|].
      split; [discriminate | tauto]. }
  destruct (truthy password) eqn:Hp; simpl.
  2:{ split; [split; [discriminate | intros (_ & H & _); discriminate]|].
      split; [discriminate | tauto]. }
  destruct (userByUsername username s) as [user|] eqn:Huser.
  2:{ split; [split; [discriminate | intros (_ & _ & u & H & _); discriminate]|].
      split; [discriminate | tauto]. }
  destruct (strict_eq (prop user "password") password) eqn:Hpw; simpl.
  - split; [split; [intros _; eauto 6 | reflexivity]|].
    split; [|tauto]. intros _. exists user, (public_user user).
    split; [reflexivity|]. split; [reflexivity|].
    split; [apply public_user_no_password|].
    unfold public_user. by simplify_map_eq.
  - split; [split; [discriminate|]|split; [discriminate | tauto]].
    intros (_ & _ & u & [= <-] & H). congruence.
Qed.

Lemma login_checks_the_first_user_of_the_name_witness :
  let body : obj := {[ "username" := JStr "admin"; "password" := JStr "admin123" ]} in
  (truthy (prop body "username") = true /\ truthy (prop body "password") = true
   /\ exists user, userByUsername (prop body "username") seeded = Some user
        /\ strict_eq (prop user "password") (prop body "password") = true)
  /\ status (post_auth_login body seeded) = 200.
Proof.
  intros body.
  assert (H : truthy (prop body "username") = true
              /\ truthy (prop body "password") = true
              /\ exists user, userByUsername (prop body "username") seeded = Some user
                   /\ strict_eq (prop user "password") (prop body "password") = true).
  { split; [reflexivity|]. split; [reflexivity|]. eexists. split; reflexivity. }
  split; [exact H|].
  exact (proj2 (proj1 (login_checks_the_first_user_of_the_name body seeded)) H).
Defined.

(** X20. GET /api/athletes answers 200 with one object per stored athlete,
    in the order of the store: the fields of the athlete, and under [user]
    the whole stored record of the user that its userId names (the
    password field included), or undefined when there is no such user. *)
Theorem athletes_are_listed_with_their_user (s : MemStorage) :
  exists l,
    get_athletes s = mkResponse 200 (JsonArray l)
    /\ length l = length (getAllAthletes s)
    /\ forall i athlete, getAllAthletes s !! i = Some athlete ->
         exists joined, l !! i = Some joined
           /\ (forall k, k <> "user" -> joined !! k = athlete !! k)
           /\ (forall uid user, athlete !! "userId" = Some (JStr uid) ->
                 getUser uid s = Some user ->
                 joined !! "user" = Some (JObj user))
           /\ (forall uid, athlete !! "userId" = Some (JStr uid) ->
                 getUser uid s = None ->
                 joined !! "user" = Some JUndefined).
Proof.
  eexists. split; [reflexivity|]. split; [apply length_map|].
  intros i athlete Hi. exists (with_user athlete s).
  split.
  { change (List.map (fun a => with_user a s) (getAllAthletes s))
      with ((fun a => with_user a s) <$> getAllAthletes s).
    rewrite list_lookup_fmap, Hi. reflexivity. }
  unfold with_user. split; [|split].
  - intros k Hk. apply lookup_insert_ne. congruence.
  - intros uid user Huid Huser. rewrite (prop_present _ _ _ Huid). simpl.
    unfold getUser in Huser. rewrite Huser. apply lookup_insert_eq.
  - intros uid Huid Huser. rewrite (prop_present _ _ _ Huid). simpl.
    unfold getUser in Huser. rewrite Huser. apply lookup_insert_eq.
Qed.

Lemma athletes_are_listed_with_their_user_witness :
  exists joined user,
    sent (get_athletes seeded) = JsonArray [joined]
    /\ getUser "id-joao" seeded = Some user
    /\ joined !! "user" = Some (JObj user)
    /\ user !! "password" = Some (JStr "athlete123").
Proof.
  destruct (athletes_are_listed_with_their_user seeded) as (l & Hl & _ & _).
  injection Hl as <-.
  eexists _, _. repeat split.
Defined.

(** X21. A PUT handler answers 404 when the id is not stored and leaves
    the store as it is; otherwise it answers 200 with the stored record
    merged with the body, whatever the body holds, and that record is what
    the store then holds under the id. *)
Theorem put_merges_the_body_unchecked
    (e : kind) (g : string -> MemStorage -> option obj)
    (u : string -> obj -> MemStorage -> option obj * MemStorage)
    (notFound : string) (id : string) (body : obj) (s : MemStorage) :
  get e = Some g ->
  update e = Some u ->
  let r := (put u notFound id body s).1 in
  let s' := (put u notFound id body s).2 in
  (g id s = None -> r = message 404 notFound /\ s' = s)
  /\ (forall old, g id s = Some old ->
        r = ok (JObj (spread2 old body)) /\ g id s' = Some (spread2 old body)).
Proof.
  intros Hg Hu r s'. unfold r, s', put.
  rewrite !(get_table e g _ _ Hg).
  destruct (update_table e u id body s Hu) as [Hret Htbl].
  destruct (u id body s) as [result s1] eqn:Hcall. simpl in *.
  split.
  - intros Hnone. rewrite Hnone in Hret. injection Hret as -> ->.
    split; reflexivity.
  - intros old Hold. rewrite Hold in Hret. injection Hret as ->.
    split; [reflexivity|]. simpl.
    rewrite (Htbl old Hold). apply get_set_eq.
Qed.

Lemma put_merges_the_body_unchecked_witness :
  let body : obj := {[ "id" := JStr "other"; "overallPerformance" := JNum 7 ]} in
  (get KAthlete = Some getAthlete /\ update KAthlete = Some updateAthlete)
  /\ (put_athletes_id "id-9" body seeded).1 = message 404 "Athlete not found"
  /\ (exists old, getAthlete "id-profile" seeded = Some old
        /\ (put_athletes_id "id-profile" body seeded).1
           = ok (JObj (spread2 old body))).
Proof.
  intros body. split; [split; reflexivity|]. split.
  - apply (put_merges_the_body_unchecked KAthlete getAthlete updateAthlete
             "Athlete not found" "id-9" body seeded eq_refl eq_refl).
    reflexivity.
  - eexists. split; [reflexivity|].
    apply (put_merges_the_body_unchecked KAthlete getAthlete updateAthlete
             "Athlete not found" "id-profile" body seeded eq_refl eq_refl).
    reflexivity.
Defined.

(** X22. A DELETE handler answers 204 without a body exactly when a record
    was stored under the id, and 404 otherwise; after it the id is gone,
    so a repeated DELETE answers 404 and changes nothing. *)
Theorem delete_route_answers
    (e : kind) (d : string -> MemStorage -> bool * MemStorage)
    (notFound : string) (id : string) (s : MemStorage) :
  delete e = Some d ->
  let r := (del d notFound id s).1 in
  let s' := (del d notFound id s).2 in
  (is_Some (JsMap.get id (table e s)) -> r = mkResponse 204 Empty)
  /\ (JsMap.get id (table e s) = None -> r = message 404 notFound /\ s' = s)
  /\ del d notFound id s' = (message 404 notFound, s').
Proof.
  intros Hd r s'.
  assert (Hdel : forall s0, JsMap.get id (table e s0) = None ->
                   del d notFound id s0 = (message 404 notFound, s0)).
  { intros s0 Hnone. unfold del. rewrite (delete_absent e d id s0 Hd Hnone).
    reflexivity. }
  destruct (delete_table e d id s Hd) as [Hret Htbl].
  split; [|split].
  - intros [old Hold]. unfold r, del.
    destruct (d id s) as [success s1] eqn:Hcall. simpl in Hret.
    rewrite Hret, (has_true _ _ _ Hold). reflexivity.
  - intros Hnone. unfold r, s'. rewrite (Hdel s Hnone). split; reflexivity.
  - apply Hdel. unfold s', del.
    destruct (d id s) as [success s1] eqn:Hcall. simpl in Htbl.
    destruct (negb success); simpl; rewrite Htbl; apply get_remove_eq.
Qed.

Lemma delete_route_answers_witness :
  (delete KAthlete = Some deleteAthlete
   /\ is_Some (JsMap.get "id-profile" (table KAthlete seeded)))
  /\ (delete_athletes_id "id-profile" seeded).1 = mkResponse 204 Empty
  /\ (delete_athletes_id "id-profile"
        (delete_athletes_id "id-profile" seeded).2).1
     = message 404 "Athlete not found".
Proof.
  assert (H : is_Some (JsMap.get "id-profile" (table KAthlete seeded))).
  { eexists. reflexivity. }
  split; [split; [reflexivity | exact H]|].
  destruct (delete_route_answers KAthlete deleteAthlete "Athlete not found"
              "id-profile" seeded eq_refl) as (H1 & _ & H3).
  split; [exact (H1 H)|].
  unfold delete_athletes_id. rewrite H3. reflexivity.
Defined.

(** X23. GET /api/exercises always answers 200: with all exercises when
    the category parameter is absent or empty, and otherwise with exactly
    the stored exercises of that category, an empty list when there is
    none.  GET /api/training-sessions answers 400 when athleteId is absent
    or empty, and otherwise 200 with exactly the sessions of that athlete. *)
Theorem list_routes_read_the_query
    (category athleteId : option string) (s : MemStorage) :
  (exists l, get_exercises category s = mkResponse 200 (JsonArray l)
     /\ ((category = None \/ category = Some "") -> l = getAllExercises s)
     /\ (forall c, category = Some c -> c <> "" ->
           forall r, r ∈ l <-> r ∈ getAllExercises s
                               /\ r !! "category" = Some (JStr c)))
  /\ ((athleteId = None \/ athleteId = Some "") ->
      status (get_training_sessions athleteId s) = 400)
  /\ (forall a, athleteId = Some a -> a <> "" ->
        exists l, get_training_sessions athleteId s = mkResponse 200 (JsonArray l)
          /\ forall r, r ∈ l <-> r ∈ JsMap.values (trainingSessions s)
                                 /\ r !! "athleteId" = Some (JStr a)).
Proof.
  assert (Hgiven : forall v, v <> "" -> given (Some v) = Some v).
  { intros v Hv. unfold given. destruct (String.eqb_spec v ""); congruence. }
  split; [|split].
  - eexists. split; [reflexivity|]. split.
    + intros [->| ->]; reflexivity.
    + intros c -> Hc r. rewrite (Hgiven c Hc).
      unfold getExercisesByCategory, getAllExercises.
      rewrite elem_of_bool_filter, strict_eq_str_true. reflexivity.
  - intros [->| ->]; reflexivity.
  - intros a -> Ha. unfold get_training_sessions. rewrite (Hgiven a Ha).
    eexists. split; [reflexivity|]. intros r.
    unfold getTrainingSessionsByAthlete.
    rewrite elem_of_bool_filter, strict_eq_str_true. reflexivity.
Qed.

Lemma list_routes_read_the_query_witness :
  get_exercises (Some "") seeded = mkResponse 200 (JsonArray (getAllExercises seeded))
  /\ status (get_training_sessions (Some "") seeded) = 400.
Proof.
  destruct (list_routes_read_the_query (Some "") (Some "") seeded)
    as ((l & Hl & Hall & _) & H400 & _).
  split.
  - rewrite Hl. rewrite (Hall (or_intror eq_refl)). reflexivity.
  - apply H400. right. reflexivity.
Defined.

(** X24. GET /api/best-of-week answers 500 exactly when the lookup raises
    and 404 exactly when it finds nothing.  When every stored record has a
    [Date] as weekStart it never answers 500, and it answers 200 exactly
    when a stored record has the boundary of the current time as its
    weekStart.  The answer for a record whose athlete is not stored is
    still 200, with an athlete object that holds only a null user. *)
Theorem best_of_week_route_answers
    (tz : JsDate.zone) (now : Z) (s : MemStorage) :
  let r := get_best_of_week tz now s in
  (status r = 500 <-> getCurrentBestOfWeek tz now s = Throws)
  /\ (status r = 404 <-> getCurrentBestOfWeek tz now s = Returns None)
  /\ ((forall b, b ∈ JsMap.values (bestOfWeeks s) ->
                 exists w, b !! "weekStart" = Some (JDate w)) ->
      status r <> 500
      /\ (status r = 200 <->
          exists b, b ∈ JsMap.values (bestOfWeeks s)
            /\ b !! "weekStart" = Some (JDate (getStartOfWeek tz now))))
  /\ (forall best, getCurrentBestOfWeek tz now s = Returns (Some best) ->
        map_get (prop best "athleteId") (athletes s) = None ->
        r = ok (JObj (<["athlete" := JObj {[ "user" := JNull ]}]> best))).
Proof.
  intros r. unfold r, get_best_of_week.
  split; [|split; [|split]].
  - destruct (getCurrentBestOfWeek tz now s) as [[best|]|]; simpl;
      split; try discriminate; reflexivity.
  - destruct (getCurrentBestOfWeek tz now s) as [[best|]|]; simpl;
      split; try discriminate; reflexivity.
  - intros Htyped. unfold getCurrentBestOfWeek.
    destruct (find_weekStart_first (getStartOfWeek tz now) _ Htyped)
      as (result & -> & Hspec).
    destruct result as [best|]; simpl.
    + split; [discriminate|]. split; [|reflexivity]. intros _.
      destruct Hspec as (l1 & l2 & Heq & Hw & _). exists best.
      split; [|exact Hw]. rewrite Heq. apply elem_of_app. right.
      apply list_elem_of_here.
    + split; [discriminate|]. split; [discriminate|].
      intros (b & Hb & Hw). exfalso. exact (Hspec b Hb Hw).
  - intros best -> Hathlete. rewrite Hathlete. reflexivity.
Qed.

Lemma best_of_week_route_answers_witness :
  let x : obj := {[ "athleteId" := JStr "id-gone";
                    "weekStart" := JDate (-345600000) ]} in
  let s := (setBestOfWeek "id-1" x seeded).2 in
  exists best,
    getCurrentBestOfWeek (JsDate.fixed_zone 0) 8 s = Returns (Some best)
    /\ map_get (prop best "athleteId") (athletes s) = None
    /\ get_best_of_week (JsDate.fixed_zone 0) 8 s
       = ok (JObj (<["athlete" := JObj {[ "user" := JNull ]}]> best)).
Proof.
  intros x s.
  assert (H1 : getCurrentBestOfWeek (JsDate.fixed_zone 0) 8 s = Returns (Some (setBestOfWeek "id-1" x seeded).1))
    by (vm_compute; reflexivity).
  assert (H2 : map_get (prop (setBestOfWeek "id-1" x seeded).1 "athleteId")
                 (athletes s) = None) by reflexivity.
  eexists. split; [exact H1|]. split; [exact H2|].
  exact (proj2 (proj2 (proj2 (best_of_week_route_answers
                         (JsDate.fixed_zone 0) 8 s))) _ H1 H2).
Defined.

(** The names and the addresses of the stored users, in the order of the
    store. *)
Definition usernames (s : MemStorage) : list jsval :=
  (fun user => prop user "username") <$> JsMap.values (users s).

Definition emails (s : MemStorage) : list jsval :=
  (fun user => prop user "email") <$> JsMap.values (users s).

Lemma find_None_not_elem (field name : string) (l : list obj) :
  array_find (fun user => strict_eq (prop user field) (JStr name)) l = None ->
  JStr name ∉ (fun user => prop user field) <$> l.
Proof.
  intros Hnone Hin. apply list_elem_of_fmap in Hin as (user & Heq & Hin).
  pose proof (proj1 (array_find_None _ _) Hnone user Hin) as Hfalse.
  simpl in Hfalse. rewrite <- Heq in Hfalse. simpl in Hfalse.
  rewrite bool_decide_eq_true_2 in Hfalse by reflexivity. discriminate.
Qed.

Lemma register_users parse userId now profileId body s data :
  parse body = Some data ->
  userByUsername (prop data "username") s = None ->
  userByEmail (prop data "email") s = None ->
  let user := (createUser userId now data s).1 in
  let s' := (post_auth_register parse userId now profileId body s).2 in
  (post_auth_register parse userId now profileId body s).1
    = mkResponse 201 (Json (JObj {[ "user" := JObj (public_user user) ]}))
  /\ users s' = JsMap.set userId user (users s)
  /\ athletes s'
     = if strict_eq (prop data "role") (JStr "athlete")
       then JsMap.set profileId
              (createAthlete profileId
                 {[ "userId" := prop user "id"; "height" := JNull;
                    "weight" := JNull; "sleepHours" := JNull;
                    "overallPerformance" := JStr "0";
                    "lastTraining" := JNull ]} s).1
              (athletes s)
       else athletes s.
Proof.
  intros Hparse Hname Hmail user s'. unfold s', post_auth_register.
  rewrite Hparse, Hname, Hmail. unfold createUser. cbn [fst snd].
  destruct (strict_eq (prop data "role") (JStr "athlete"));
    repeat split; reflexivity.
Qed.

(** X25. Registration keeps names and addresses unique.  When the stored
    users have pairwise distinct usernames and emails and the validated
    data carry a string as username and as email, they still have after
    the registration; a name or an address that is taken is answered with
    400 and the store is left as it is. *)
Theorem registration_keeps_names_unique
    (parse : obj -> option obj) (userId : string) (now : Z) (profileId : string)
    (body data : obj) (name mail : string) (s : MemStorage) :
  parse body = Some data ->
  data !! "username" = Some (JStr name) ->
  data !! "email" = Some (JStr mail) ->
  JsMap.get userId (users s) = None ->
  NoDup (usernames s) ->
  NoDup (emails s) ->
  let r := (post_auth_register parse userId now profileId body s).1 in
  let s' := (post_auth_register parse userId now profileId body s).2 in
  NoDup (usernames s') /\ NoDup (emails s')
  /\ (JStr name ∈ usernames s \/ JStr mail ∈ emails s ->
      status r = 400 /\ s' = s).
Proof.
  intros Hparse Hname Hmail Hfresh Hun Hem r s'.
  assert (Hcases :
    (s' = s /\ status r = 400)
    \/ (userByUsername (JStr name) s = None /\ userByEmail (JStr mail) s = None)).
  { unfold r, s', post_auth_register.
    rewrite Hparse, (prop_present _ _ _ Hname), (prop_present _ _ _ Hmail).
    destruct (userByUsername (JStr name) s); [left; split; reflexivity|].
    destruct (userByEmail (JStr mail) s); [left; split; reflexivity|].
    right. split; reflexivity. }
  destruct Hcases as [[-> Hst]|[Hn Hm]]; [tauto|].
  pose proof (find_None_not_elem "username" name _ Hn) as Hnin.
  pose proof (find_None_not_elem "email" mail _ Hm) as Hmin.
  rewrite <- (prop_present _ _ _ Hname) in Hn.
  rewrite <- (prop_present _ _ _ Hmail) in Hm.
  destruct (register_users parse userId now profileId body s data Hparse Hn Hm)
    as (_ & Husers & _).
  fold s' in Husers. rewrite (set_fresh _ _ _ Hfresh) in Husers.
  assert (Hu : usernames s' = usernames s ++ [JStr name]).
  { unfold usernames, JsMap.values. rewrite Husers, !fmap_app. f_equal.
    simpl. f_equal. apply prop_present.
    rewrite !lookup_insert_ne by discriminate. exact Hname. }
  assert (He : emails s' = emails s ++ [JStr mail]).
  { unfold emails, JsMap.values. rewrite Husers, !fmap_app. f_equal.
    simpl. f_equal. apply prop_present.
    rewrite !lookup_insert_ne by discriminate. exact Hmail. }
  rewrite Hu, He. split; [|split].
  - apply NoDup_app. split; [exact Hun|]. split; [|apply NoDup_singleton].
    intros x Hx Hx'. apply list_elem_of_singleton in Hx'. subst x. exact (Hnin Hx).
  - apply NoDup_app. split; [exact Hem|]. split; [|apply NoDup_singleton].
    intros x Hx Hx'. apply list_elem_of_singleton in Hx'. subst x. exact (Hmin Hx).
  - intros [H|H]; [destruct (Hnin H) | destruct (Hmin H)].
Qed.

(** A stand-in for the validation: it asks for a username. *)
Definition needs_username (body : obj) : option obj :=
  match body !! "username" with
  | Some (JStr _) => Some body
  | _ => None
  end.

Lemma registration_keeps_names_unique_witness :
  let body : obj := {[ "username" := JStr "admin"; "email" := JStr "ana@lions.com";
                       "password" := JStr "secret" ]} in
  (needs_username body = Some body
   /\ body !! "username" = Some (JStr "admin")
   /\ body !! "email" = Some (JStr "ana@lions.com")
   /\ JsMap.get "id-1" (users seeded) = None
   /\ NoDup (usernames seeded) /\ NoDup (emails seeded)
   /\ JStr "admin" ∈ usernames seeded)
  /\ status (post_auth_register needs_username "id-1" 2000 "id-2" body seeded).1 = 400
  /\ (post_auth_register needs_username "id-1" 2000 "id-2" body seeded).2 = seeded.
Proof.
  intros body.
  assert (Hun : NoDup (usernames seeded)).
  { repeat (apply NoDup_cons_2; [intros H;
      repeat (apply elem_of_cons in H as [H|H]; [discriminate H|]); inversion H|]).
    apply NoDup_nil_2. }
  assert (Hem : NoDup (emails seeded)).
  { repeat (apply NoDup_cons_2; [intros H;
      repeat (apply elem_of_cons in H as [H|H]; [discriminate H|]); inversion H|]).
    apply NoDup_nil_2. }
  assert (Hin : JStr "admin" ∈ usernames seeded) by apply list_elem_of_here.
  split; [repeat split; first [reflexivity | assumption]|].
  exact (proj2 (proj2 (registration_keeps_names_unique needs_username "id-1" 2000
                  "id-2" body body "admin" "ana@lions.com" seeded
                  eq_refl eq_refl eq_refl eq_refl Hun Hem)) (or_introl Hin)).
Defined.

(** X26. A registration that passes the checks answers 201 and stores the
    user.  It creates the athlete profile, with the user's id and the
    performance "0", only when the validated data carry the role
    "athlete": when they carry no role the user is stored with the role
    "athlete" all the same, but no profile is created; nor is one created
    for any other role. *)
Theorem registration_creates_profile_for_explicit_role
    (parse : obj -> option obj) (userId : string) (now : Z) (profileId : string)
    (body data : obj) (s : MemStorage) :
  parse body = Some data ->
  userByUsername (prop data "username") s = None ->
  userByEmail (prop data "email") s = None ->
  let r := (post_auth_register parse userId now profileId body s).1 in
  let s' := (post_auth_register parse userId now profileId body s).2 in
  status r = 201
  /\ (exists user, getUser userId s' = Some user
        /\ (data !! "role" = Some (JStr "athlete") ->
            exists profile, getAthlete profileId s' = Some profile
              /\ profile !! "userId" = Some (JStr userId)
              /\ profile !! "overallPerformance" = Some (JStr "0"))
        /\ (data !! "role" = None ->
            user !! "role" = Some (JStr "athlete")
            /\ athletes s' = athletes s)
        /\ (forall role, data !! "role" = Some (JStr role) ->
              role <> "athlete" -> athletes s' = athletes s)).
Proof.
  intros Hparse Hname Hmail r s'.
  destruct (register_users parse userId now profileId body s data Hparse Hname Hmail)
    as (Hr & Husers & Hathletes).
  fold r in Hr. fold s' in Husers, Hathletes.
  split; [rewrite Hr; reflexivity|].
  eexists. split; [unfold getUser; rewrite Husers; apply get_set_eq|].
  split.
  - intros Hrole. rewrite (prop_present _ _ _ Hrole) in Hathletes.
    cbn [strict_eq] in Hathletes.
    rewrite bool_decide_eq_true_2 in Hathletes by reflexivity.
    match type of Hathletes with
    | context [createAthlete profileId ?x s] => set (input := x) in *
    end.
    exists (create KAthlete profileId 0 input s).1.
    split; [unfold getAthlete; rewrite Hathletes; apply get_set_eq|]. split.
    + rewrite create_passes.
      * unfold input. rewrite lookup_insert_eq. f_equal.
        apply prop_present. apply (create_id KUser).
      * intros H. repeat (apply elem_of_cons in H as [H|H]; [discriminate H|]).
        inversion H.
    + rewrite create_nullable.
      * unfold input, prop. rewrite !lookup_insert_ne by discriminate.
        rewrite lookup_insert_eq. reflexivity.
      * repeat first [apply list_elem_of_here | apply list_elem_of_further].
  - split.
    + intros Hrole. rewrite (prop_absent _ _ Hrole) in Hathletes.
      split; [|exact Hathletes].
      unfold createUser. cbn [fst]. rewrite (prop_absent _ _ Hrole).
      by simplify_map_eq.
    + intros role Hrole Hne. rewrite (prop_present _ _ _ Hrole) in Hathletes.
      cbn [strict_eq] in Hathletes.
      rewrite bool_decide_eq_false_2 in Hathletes by exact Hne.
      exact Hathletes.
Qed.

Lemma registration_creates_profile_for_explicit_role_witness :
  let body : obj := {[ "username" := JStr "ana"; "email" := JStr "ana@lions.com";
                       "password" := JStr "secret" ]} in
  let s' := (post_auth_register needs_username "id-1" 2000 "id-2" body seeded).2 in
  (needs_username body = Some body
   /\ userByUsername (prop body "username") seeded = None
   /\ userByEmail (prop body "email") seeded = None
   /\ body !! "role" = None)
  /\ (exists user, getUser "id-1" s' = Some user
        /\ user !! "role" = Some (JStr "athlete"))
  /\ getAthleteByUserId "id-1" s' = None.
Proof.
  intros body s'.
  assert (H1 : userByUsername (prop body "username") seeded = None) by reflexivity.
  assert (H2 : userByEmail (prop body "email") seeded = None) by reflexivity.
  assert (H3 : body !! "role" = None) by reflexivity.
  split; [repeat split; first [reflexivity | assumption]|].
  destruct (registration_creates_profile_for_explicit_role needs_username "id-1"
              2000 "id-2" body body seeded eq_refl H1 H2)
    as (_ & user & Huser & _ & Hnone & _).
  destruct (Hnone H3) as [Hrole Hathletes].
  split; [exists user; split; [exact Huser | exact Hrole]|].
  unfold getAthleteByUserId, s'. rewrite Hathletes. reflexivity.
Defined.

End RouteFacts.
